(** * genai_cookbook: the RAG web application and the MCP tool server

    A shallow embedding of

    - [3_RAG/rag_app/gradio_rag_app.py]: document loading, indexing,
      context assembly and source-attributed answers, and
    - [4_Agents/mcp_server/mcp_server_example.py]: the file tools and their
      path-containment check,

    followed by the properties of the specification that concern them.

    Conventions.  A Python [str] is a list of Unicode code points, so that
    [len], slicing and [strip] count characters as Python does.  A Python
    exception is the value [Exn msg], where [msg] is [str(e)].  A call into a
    third-party library whose result the program does not control (document
    parsers, text splitter, embedding and chat model, vector search) is a
    field of the record [Rag.Env], over which every statement quantifies. *)

From Stdlib Require Import ZArith NArith List Ascii String Lia.
From stdpp Require Import base decidable option list numbers countable gmap pretty.

Local Open Scope N_scope.
Local Open Scope list_scope.

(** ** Python strings *)

Module Py.

Definition char := N.
Definition str := list N.

(** Bytes of a literal, and the code points they encode in UTF-8 (the source
    files are UTF-8, and several message constants hold emoji). *)
Fixpoint bytes_of (s : string) : list N :=
  match s with
  | EmptyString => []
  | String a r => N_of_ascii a :: bytes_of r
  end.

Fixpoint utf8_decode (pend : N) (k : nat) (bs : list N) : str :=
  match bs with
  | [] => []
  | b :: r =>
      match k with
      | S k' =>
          let c := pend * 64 + b mod 64 in
          match k' with
          | O => c :: utf8_decode 0 0%nat r
          | S _ => utf8_decode c k' r
          end
      | O =>
          if b <? 128 then b :: utf8_decode 0 0%nat r
          else if b <? 224 then utf8_decode (b mod 32) 1%nat r
          else if b <? 240 then utf8_decode (b mod 16) 2%nat r
          else utf8_decode (b mod 8) 3%nat r
      end
  end.

(** [u "..."] is the Python string literal ["..."]. *)
Definition u (s : string) : str := utf8_decode 0 0%nat (bytes_of s).
Arguments u : simpl never.

Definition nl : char := 10.
Definition space : char := 32.

(** [str.isspace] on one character: the code points with the Unicode
    White_Space property or bidirectional type WS, B or S. *)
Definition isspace (c : char) : bool :=
  ((9 <=? c) && (c <=? 13)) || ((28 <=? c) && (c <=? 32))
  || (c =? 133) || (c =? 160) || (c =? 5760)
  || ((8192 <=? c) && (c <=? 8202))
  || (c =? 8232) || (c =? 8233) || (c =? 8239) || (c =? 8287) || (c =? 12288).

Fixpoint lstrip (s : str) : str :=
  match s with
  | [] => []
  | c :: r => if isspace c then lstrip r else s
  end.

Definition rstrip (s : str) : str := rev (lstrip (rev s)).

(** [s.strip()] *)
Definition strip (s : str) : str := rstrip (lstrip s).

(** [s.replace(a, b)] for one-character [a] and [b]. *)
Definition replace_char (a b : char) (s : str) : str :=
  map (fun c => if c =? a then b else c) s.

(** [s[:n]] *)
Definition slice_to (n : nat) (s : str) : str := take n s.
Arguments slice_to : simpl never.

(** [sep.join(l)] *)
Fixpoint join (sep : str) (l : list str) : str :=
  match l with
  | [] => []
  | [x] => x
  | x :: r => x ++ sep ++ join sep r
  end.

(** [s.startswith(p)] *)
Fixpoint startswith (s p : str) : bool :=
  match p, s with
  | [], _ => true
  | _ :: _, [] => false
  | a :: p', b :: s' => (a =? b) && startswith s' p'
  end.

(** [s.split(sep)] for a one-character [sep]; [cur] is the piece being read,
    in reverse. *)
Fixpoint split_on (sep : char) (cur : str) (s : str) : list str :=
  match s with
  | [] => [rev cur]
  | c :: r => if c =? sep then rev cur :: split_on sep [] r
              else split_on sep (c :: cur) r
  end.

(** [s.lower()] on the ASCII letters.  Other characters are left as they
    are: no character outside ASCII lowers to a letter of a supported file
    extension, so the loader chosen for a path is the one the program
    chooses; the lower-case form of a capital outside ASCII is not
    modelled. *)
Definition lower_char (c : char) : char :=
  if (65 <=? c) && (c <=? 90) then c + 32 else c.
Definition lower (s : str) : str := map lower_char s.

(** [str(n)] for an [int]. *)
Definition str_of_Z (z : Z) : str := bytes_of (pretty z).
Definition str_of_nat (n : nat) : str := str_of_Z (Z.of_nat n).

(** [c * n], a character repeated. *)
Definition repeat_char (c : char) (n : nat) : str := replicate n c.

(** Exceptions, and results of code that may raise. *)
Record exn := Exn { exn_msg : str }.

Inductive outcome (A : Type) :=
| Ok (a : A)
| Raise (e : exn).
Arguments Ok {A} a.
Arguments Raise {A} e.

Definition bind {A B} (m : outcome A) (f : A -> outcome B) : outcome B :=
  match m with
  | Ok a => f a
  | Raise e => Raise e
  end.

(** Values an argument dictionary or a metadata dictionary can hold. *)
Inductive pyval :=
| PNone
| PStr (s : str)
| PInt (z : Z).

#[export] Instance pyval_eq_dec : EqDecision pyval.
Proof. solve_decision. Defined.

(** [str(v)], as an f-string formats [v]. *)
Definition format (v : pyval) : str :=
  match v with
  | PNone => u "None"
  | PStr s => s
  | PInt z => str_of_Z z
  end.

End Py.

Import Py.
Notation "m >>= f" := (Py.bind m f) (at level 58, left associativity).

(** ** pathlib *)

Module Pathlib.

(** A [PurePosixPath]: whether it is anchored at the root, and its parts
    without the anchor. *)
Record Path := MkPath { absolute : bool; parts : list str }.

Definition is_dot (c : str) : bool := bool_decide (c = [46]).
Definition is_dotdot (c : str) : bool := bool_decide (c = [46; 46]).

(** [Path(s)]: empty components and ["."] are dropped when a path is parsed. *)
Definition of_str (s : str) : Path :=
  {| absolute := startswith s [47];
     parts := filter (fun c => c <> [] /\ c <> [46]) (split_on 47 [] s) |}.

(** [p / q] *)
Definition joinpath (p q : Path) : Path :=
  if absolute q then q
  else {| absolute := absolute p; parts := parts p ++ parts q |}.

(** [p.parent] *)
Definition parent (p : Path) : Path :=
  {| absolute := absolute p; parts := removelast (parts p) |}.

(** [p.name] *)
Definition name (p : Path) : str := List.last (parts p) [].

(** [str(p)] *)
Definition to_str (p : Path) : str :=
  if absolute p then 47 :: join [47] (parts p)
  else match parts p with
       | [] => [46]
       | ps => join [47] ps
       end.

(** [p.suffix]: from the last dot of the name, unless the name starts or
    ends with it. *)
Fixpoint rfind_dot (s : str) (i : nat) (found : option nat) : option nat :=
  match s with
  | [] => found
  | c :: r => rfind_dot r (S i) (if c =? 46 then Some i else found)
  end.

Definition suffix (p : Path) : str :=
  let n := name p in
  match rfind_dot n 0%nat None with
  | Some i => if (0 <? i)%nat && (i <? length n - 1)%nat then drop i n else []
  | None => []
  end.

(** Collapsing [".."] against the parts before it; at the root it is
    dropped.  [acc] holds the resolved parts in reverse. *)
Fixpoint normalize (acc : list str) (ps : list str) : list str :=
  match ps with
  | [] => rev acc
  | c :: r => if is_dotdot c then normalize (tail acc) r
              else normalize (c :: acc) r
  end.

(** What [p.resolve()] returns, in a file system without symbolic links and
    with current directory [cwd] (absolute and resolved). *)
Definition resolve (cwd : list str) (p : Path) : Path :=
  {| absolute := true;
     parts := normalize [] (if absolute p then parts p else cwd ++ parts p) |}.

(** [p.resolve()] itself: it raises [ValueError] when a part of the path
    holds a NUL character, which no file name can. *)
Definition has_nul (p : Path) : bool :=
  existsb (fun part => existsb (N.eqb 0) part) (parts p).

Definition resolve_or_raise (cwd : list str) (p : Path) : outcome Path :=
  if has_nul p then Raise (Exn (u "embedded null byte"))
  else Ok (resolve cwd p).


End Pathlib.

(** ** The MCP tool server: [mcp_server_example.py] *)

Module Mcp.
Import Pathlib.

(** The file system the handlers see: a tree of directories and regular
    text files, without symbolic links. *)
Inductive node :=
| File (content : str)
| Dir (entries : list (str * node)).

Fixpoint lookup_path (n : node) (p : list str) : option node :=
  match p with
  | [] => Some n
  | c :: p' =>
      match n with
      | File _ => None
      | Dir es =>
          (fix find (es : list (str * node)) : option node :=
             match es with
             | [] => None
             | (k, child) :: es' =>
                 if decide (k = c) then lookup_path child p' else find es'
             end) es
      end
  end.

(** [TextContent(type=..., text=...)] *)
Record TextContent := MkTextContent { type : str; text : str }.

#[export] Instance TextContent_eq_dec : EqDecision TextContent.
Proof. solve_decision. Defined.

Definition text_content (t : str) : TextContent :=
  {| type := u "text"; text := t |}.

(** [sorted(names)]: by code point, lexicographically. *)
Fixpoint str_leb (a b : str) : bool :=
  match a, b with
  | [], _ => true
  | _ :: _, [] => false
  | x :: a', y :: b' => (x <? y) || ((x =? y) && str_leb a' b')
  end.

Fixpoint insert_sorted (x : str) (l : list str) : list str :=
  match l with
  | [] => [x]
  | y :: r => if str_leb x y then x :: l else y :: insert_sorted x r
  end.

Definition sorted (l : list str) : list str := foldr insert_sorted [] l.


Section Server.

(** [__file__], the process's current directory, and the root directory of
    the file system. *)
Variable script_file : str.
Variable cwd : list str.
Variable fs : node.

Definition get_project_root : Path := parent (parent (of_str script_file)).

(** It is called on a path already resolved and on the project root, the
    directory of an existing file: neither holds a NUL character. *)
Definition validate_path_within_project (path project_root : Path) : bool :=
  startswith (to_str (resolve cwd path)) (to_str (resolve cwd project_root)).

(** [p / v]: only a string (or path) can be joined to a path. *)
Definition truediv (p : Path) (v : pyval) : outcome Path :=
  match v with
  | PStr s => Ok (joinpath p (of_str s))
  | PNone =>
      Raise (Exn (u "unsupported operand type(s) for /: 'PosixPath' and 'NoneType'"))
  | PInt _ =>
      Raise (Exn (u "unsupported operand type(s) for /: 'PosixPath' and 'int'"))
  end.

Definition exists_ (p : Path) : bool :=
  bool_decide (is_Some (lookup_path fs (parts p))).

Definition is_dir (p : Path) : bool :=
  match lookup_path fs (parts p) with
  | Some (Dir _) => true
  | _ => false
  end.

Definition read_text (p : Path) : outcome str :=
  match lookup_path fs (parts p) with
  | Some (File c) => Ok c
  | Some (Dir _) =>
      Raise (Exn (u "[Errno 21] Is a directory: '" ++ to_str p ++ u "'"))
  | None =>
      Raise (Exn (u "[Errno 2] No such file or directory: '" ++ to_str p ++ u "'"))
  end.

(** [p.iterdir()], as pairs of a name and the node it names. *)
Definition iterdir (p : Path) : list (str * node) :=
  match lookup_path fs (parts p) with
  | Some (Dir es) => es
  | _ => []
  end.

Definition node_is_file (n : node) : bool :=
  match n with File _ => true | Dir _ => false end.

Definition denied_file : list TextContent :=
  [text_content (u "Error: Access denied. File outside project directory.")].

Definition denied_directory : list TextContent :=
  [text_content (u "Error: Access denied. Directory outside project directory.")].

Definition read_file_body (filepath : pyval) : outcome (list TextContent) :=
  let project_root := get_project_root in
  truediv project_root filepath >>= fun joined =>
  resolve_or_raise cwd joined >>= fun full_path =>
  if negb (validate_path_within_project full_path project_root) then
    Ok denied_file
  else if negb (exists_ full_path) then
    Ok [text_content (u "Error: File not found: " ++ format filepath)]
  else
    read_text full_path >>= fun content =>
    Ok [text_content (u "File contents of " ++ format filepath ++ u ":" ++ [nl; nl] ++ content)].

Definition handle_read_file (arguments : gmap str pyval) : list TextContent :=
  let filepath := default PNone (arguments !! u "filepath") in
  match read_file_body filepath with
  | Ok r => r
  | Raise e => [text_content (u "Error reading file: " ++ exn_msg e)]
  end.

Definition list_files_body (directory : pyval) : outcome (list TextContent) :=
  let project_root := get_project_root in
  truediv project_root directory >>= fun joined =>
  resolve_or_raise cwd joined >>= fun dir_path =>
  if negb (validate_path_within_project dir_path project_root) then
    Ok denied_directory
  else if negb (exists_ dir_path) then
    Ok [text_content (u "Error: Directory not found: " ++ format directory)]
  else if negb (is_dir dir_path) then
    Ok [text_content (u "Error: Path is not a directory: " ++ format directory)]
  else
    let files := map fst (filter (fun e => node_is_file (snd e) = true) (iterdir dir_path)) in
    let dirs := map fst (filter (fun e => node_is_file (snd e) = false) (iterdir dir_path)) in
    let result := u "Files in " ++ format directory ++ u ":" ++ [nl] in
    let result :=
      if bool_decide (files = []) then result
      else result ++ [nl] ++ u "Files:" ++ [nl]
           ++ join [nl] (map (fun f => u "  - " ++ f) (sorted files)) in
    let result :=
      if bool_decide (dirs = []) then result
      else result ++ [nl] ++ u "Directories:" ++ [nl]
           ++ join [nl] (map (fun d => u "  - " ++ d ++ u "/") (sorted dirs)) in
    let result :=
      if bool_decide (files = []) && bool_decide (dirs = []) then result ++ u "  (empty)"
      else result in
    Ok [text_content result].

Definition handle_list_files (arguments : gmap str pyval) : list TextContent :=
  let directory := default (PStr (u ".")) (arguments !! u "directory") in
  match list_files_body directory with
  | Ok r => r
  | Raise e => [text_content (u "Error listing files: " ++ exn_msg e)]
  end.

(** The requested path, resolved, as [handle_read_file] and
    [handle_list_files] compute it; and whether it lies inside the project
    root, part by part. *)
Definition resolved_request (requested : str) : Path :=
  resolve cwd (joinpath get_project_root (of_str requested)).

Definition inside_project (p : Path) : Prop :=
  parts (resolve cwd get_project_root) `prefix_of` parts p.

End Server.

(** A deployment: the server installed under [/app], next to a directory
    [/app2] that is not part of the project. *)
Definition app_script : str := u "/app/mcp_server/mcp_server_example.py".

Definition sample_fs : node :=
  Dir [ (u "app", Dir [ (u "mcp_server", Dir [ (u "mcp_server_example.py", File (u "# server")) ]);
                        (u "README.md", File (u "readme")) ]);
        (u "app2", Dir [ (u "secret.txt", File (u "s3cret")) ]);
        (u "etc", Dir [ (u "passwd", File (u "root:x:0:0")) ]) ].

End Mcp.

(** ** The RAG application: [gradio_rag_app.py] *)

Module Rag.
Import Pathlib.

(** A langchain [Document]. *)
Record Document := MkDocument { page_content : str; metadata : gmap str pyval }.

#[export] Instance Document_eq_dec : EqDecision Document.
Proof. solve_decision. Defined.

(** What python-docx and python-pptx give for a parsed file: the paragraphs
    and the tables (rows of cells) of a Word document; the slides of a
    presentation, a slide being its shapes and a shape its [text] attribute
    when it has one. *)
Record Docx := MkDocx { paragraphs : list str; tables : list (list (list str)) }.
Definition Shape := option str.
Definition Slide := list Shape.

(** An uploaded file: an object with a [name] attribute, or a plain path. *)
Inductive upload :=
| FileObj (name : str)
| FilePath (path : str).

Definition upload_path (f : upload) : str :=
  match f with
  | FileObj n => n
  | FilePath p => p
  end.

(** [enumerate(l, start)] *)
Fixpoint enumerate {A} (start : nat) (l : list A) : list (nat * A) :=
  match l with
  | [] => []
  | x :: r => (start, x) :: enumerate (S start) r
  end.

(** Calls that leave the program, in the order they are made. *)
Inductive event :=
| ELoad (file_path : str)
| ESplit (documents : list Document)
| EAdd (chunks : list Document)
| ERetrieve (question : str)
| EChat (context question : str)
| ENewClient.

Definition collection_name : str := u "gradio_rag_documents".

(** *** Status and error messages *)

Definition msg_upload : str := u "⚠️ Please upload at least one document!".
Definition msg_not_initialized : str :=
  u "⚠️ Components not initialized! Please restart the app.".
Definition msg_no_documents : str := u "⚠️ No documents could be loaded!" ++ [nl].
Definition msg_initialize_first : str :=
  u "⚠️ Please initialize components and index documents first!".
Definition msg_no_relevant : str :=
  u "⚠️ No relevant documents found. Please index some documents first.".
Definition msg_cleared : str := u "✅ Index cleared successfully!".
Definition msg_initialized : str := u "✅ Components initialized successfully!".

(** ["\n".join(f"- {e}" for e in l)] *)
Definition bullet_list (l : list str) : str :=
  join [nl] (map (fun e => u "- " ++ e) l).

(** *** Grouping retrieved chunks by source *)

(** [doc.metadata.get("source", "Unknown")] *)
Definition source_of (doc : Document) : pyval :=
  default (PStr (u "Unknown")) (metadata doc !! u "source").

(** [sources_dict]: a dictionary keeps its keys in insertion order. *)
Definition sources_dict_t := list (pyval * list Document).

Definition has_key (source : pyval) (d : sources_dict_t) : bool :=
  bool_decide (source ∈ map fst d).

(** [d[source].append(doc)] *)
Fixpoint append_at (source : pyval) (doc : Document) (d : sources_dict_t)
  : sources_dict_t :=
  match d with
  | [] => []
  | (k, v) :: r =>
      if decide (k = source) then (k, v ++ [doc]) :: r
      else (k, v) :: append_at source doc r
  end.

Definition group_step (d : sources_dict_t) (doc : Document) : sources_dict_t :=
  let source := source_of doc in
  let d := if has_key source d then d else d ++ [(source, [])] in
  append_at source doc d.

Definition group_by_source (docs : list Document) : sources_dict_t :=
  fold_left group_step docs [].

(** *** The context given to the chat model *)

Definition context_part (source : pyval) (idx : nat) (doc : Document) : str :=
  u "[Document: " ++ format source ++ u " | Chunk " ++ str_of_nat idx ++ u "]"
  ++ [nl] ++ page_content doc.

Definition context_parts (d : sources_dict_t) : list str :=
  fold_left
    (fun parts '(source, source_docs) =>
       fold_left
         (fun parts '(idx, doc) => parts ++ [context_part source idx doc])
         (enumerate 1 source_docs) parts)
    d [].

Definition context_separator : str := [nl; nl] ++ u "---" ++ [nl; nl].

Definition build_context (d : sources_dict_t) : str :=
  join context_separator (context_parts d).

Definition system_prompt : str :=
  u "You are a helpful assistant that answers questions based on the provided context from multiple documents.

IMPORTANT INSTRUCTIONS:
1. Synthesize information from ALL relevant documents provided in the context
2. If information appears in multiple documents, mention all relevant sources
3. Always cite the specific document name when referencing information
4. If the answer cannot be found in the context, explicitly state this
5. Be comprehensive and draw connections between information from different documents when relevant
6. Format your answer clearly with proper structure".

Definition human_prompt (context question : str) : str :=
  u "Context from indexed documents:" ++ [nl; nl] ++ context ++ [nl; nl]
  ++ u "Question: " ++ question ++ [nl; nl]
  ++ u "Provide a comprehensive answer based on the context above. Cite specific documents when referencing information.".

(** The length [context[:6000]] cuts the context to. *)
Definition context_window : nat := 6000.

(** The messages [prompt] gives for [{"context": ..., "question": ...}]. *)
Definition prompt_messages (context question : str) : list (str * str) :=
  [(u "system", system_prompt); (u "human", human_prompt context question)].

(** *** The sources section appended to an answer *)

Definition chunk_preview (doc : Document) : str :=
  let preview := strip (replace_char nl space (slice_to 150 (page_content doc))) in
  if (150 <? length (page_content doc))%nat then preview ++ u "..." else preview.

Definition sources_header (source_count chunk_count : nat) : str :=
  [nl; nl] ++ repeat_char 61 60 ++ [nl]
  ++ u "📚 **Sources Used** (" ++ str_of_nat source_count ++ u " document(s), "
  ++ str_of_nat chunk_count ++ u " chunk(s))" ++ [nl]
  ++ repeat_char 61 60 ++ [nl; nl].

Definition sources_section (d : sources_dict_t) (docs : list Document) : str :=
  let unique_sources := map fst d in
  let source_count := length unique_sources in
  let chunk_count := length docs in
  fold_left
    (fun section '(source, source_docs) =>
       let section :=
         section ++ u "📄 **" ++ format source ++ u "** ("
         ++ str_of_nat (length source_docs) ++ u " chunk(s))" ++ [nl] in
       let section :=
         fold_left
           (fun section '(idx, doc) =>
              section ++ u "   • Chunk " ++ str_of_nat idx ++ u ": _"
              ++ chunk_preview doc ++ u "_" ++ [nl])
           (enumerate 1 (take 3 source_docs)) section in
       let section :=
         if (3 <? length source_docs)%nat then
           section ++ u "   • ... and " ++ str_of_nat (length source_docs - 3)
           ++ u " more chunk(s)" ++ [nl]
         else section in
       section ++ [nl])
    d (sources_header source_count chunk_count).

(** *** Notions the properties are stated with *)

(** The values of a list without repetition, in order of first occurrence. *)
Fixpoint first_seen (l : list pyval) : list pyval :=
  match l with
  | [] => []
  | x :: r => x :: filter (fun y => y <> x) (first_seen r)
  end.

(** The chunks of [docs] that come from [source], in the order of [docs]. *)
Definition chunks_from (source : pyval) (docs : list Document) : list Document :=
  filter (fun doc => source_of doc = source) docs.

(** The distinct sources of [docs], each with its chunks. *)
Definition groups_of (docs : list Document) : sources_dict_t :=
  map (fun source => (source, chunks_from source docs)) (first_seen (map source_of docs)).

(** The labelled chunks of one source, numbered from 1. *)
Definition labelled_chunks (group : pyval * list Document) : list str :=
  map (fun '(idx, doc) => context_part (fst group) idx doc) (enumerate 1 (snd group)).

(** The number of lines of a text that open a chunk of the context. *)
Definition header_count (text : str) : nat :=
  length (filter (fun line => startswith line (u "[Document: ") = true)
                 (split_on nl [] text)).

(** A preview as the specification words it: the first 150 characters with
    newlines replaced by spaces, and an ellipsis when the chunk is longer. *)
Definition preview_as_specified (doc : Document) : str :=
  replace_char nl space (slice_to 150 (page_content doc))
  ++ (if (150 <? length (page_content doc))%nat then u "..." else []).

(** The lines of the sources section for one source. *)
Definition preview_line (numbered : nat * Document) : str :=
  u "   • Chunk " ++ str_of_nat (fst numbered) ++ u ": _"
  ++ chunk_preview (snd numbered) ++ u "_" ++ [nl].

Definition more_note (source_docs : list Document) : str :=
  if (3 <? length source_docs)%nat then
    u "   • ... and " ++ str_of_nat (length source_docs - 3) ++ u " more chunk(s)" ++ [nl]
  else [].

Definition source_block (group : pyval * list Document) : str :=
  u "📄 **" ++ format (fst group) ++ u "** (" ++ str_of_nat (length (snd group))
  ++ u " chunk(s))" ++ [nl]
  ++ concat (map preview_line (enumerate 1 (take 3 (snd group))))
  ++ more_note (snd group) ++ [nl].

(** *** The world outside the program *)

(** A stored point: the embedding vector of a chunk, with the chunk's text
    and metadata. *)
Record IndexedVector (V : Type) := MkIndexedVector { iv_vector : V; iv_chunk : Document }.
Arguments MkIndexedVector {V} _ _.
Arguments iv_vector {V} _.
Arguments iv_chunk {V} _.

(** The third-party components, by what they return:
    - the document parsers, on a file path;
    - the configured [RecursiveCharacterTextSplitter], on the loaded documents;
    - the embedding model, and the exception an embedding request may end in;
    - the vector search of the retriever: the ranked positions it selects
      in a collection for a question, or an exception;
    - the chat model, on the prompt messages;
    - the exception [create_collection] may end in. *)
Record Env := MkEnv {
  vector : Type;
  PyPDFLoader_load : str -> outcome (list Document);
  TextLoader_load : str -> outcome (list Document);
  DocxDocument : str -> outcome Docx;
  Presentation : str -> outcome (list Slide);
  split_documents : list Document -> list Document;
  embed : str -> vector;
  embed_error : list str -> option exn;
  search : list (IndexedVector vector) -> str -> outcome (list nat);
  llm_invoke : list (str * str) -> outcome str;
  create_collection_error : option exn
}.

Section Pipeline.

Variable env : Env.

(** The module's global variables.  A [QdrantClient] is an object of its
    own: [clients] holds, per client created so far, the points of its
    collection [collection_name]; [vectorstore] and [retriever] refer to the
    client they were built on.  [embeddings] and [llm] tell whether the
    global is set.  [calls] is the log of calls made so far. *)
Record world := MkWorld {
  clients : list (list (IndexedVector (vector env)));
  embeddings : bool;
  llm : bool;
  vectorstore : option nat;
  retriever : option nat;
  calls : list event
}.

Definition boot : world :=
  {| clients := []; embeddings := false; llm := false;
     vectorstore := None; retriever := None; calls := [] |}.

Definition log (ev : event) (w : world) : world :=
  {| clients := clients w; embeddings := embeddings w; llm := llm w;
     vectorstore := vectorstore w; retriever := retriever w;
     calls := calls w ++ [ev] |}.

Definition set_clients (cs : list (list (IndexedVector (vector env)))) (w : world) : world :=
  {| clients := cs; embeddings := embeddings w; llm := llm w;
     vectorstore := vectorstore w; retriever := retriever w; calls := calls w |}.

Definition set_retriever (r : option nat) (w : world) : world :=
  {| clients := clients w; embeddings := embeddings w; llm := llm w;
     vectorstore := vectorstore w; retriever := r; calls := calls w |}.

Definition set_vectorstore (v : option nat) (w : world) : world :=
  {| clients := clients w; embeddings := embeddings w; llm := llm w;
     vectorstore := v; retriever := retriever w; calls := calls w |}.

Definition set_models (w : world) : world :=
  {| clients := clients w; embeddings := true; llm := true;
     vectorstore := vectorstore w; retriever := retriever w; calls := calls w |}.

(** [QdrantClient(location=":memory:")] followed by [create_collection]:
    a new client whose collection is empty, and its identity. *)
Definition new_client (w : world) : outcome nat * world :=
  let w := log ENewClient w in
  match create_collection_error env with
  | Some e => (Raise e, w)
  | None => (Ok (length (clients w)), set_clients (clients w ++ [[]]) w)
  end.

(** Modelled from the spec: [vectorstore.add_documents] (langchain and
    Qdrant, not part of the repository).  Each chunk is embedded and stored
    with its text and metadata as a new point of the collection; points
    already stored are not touched.  A failing embedding request stores
    nothing. *)
Definition add_documents (chunks : list Document) (w : world) : outcome world :=
  match vectorstore w with
  | None => Raise (Exn (u "'NoneType' object has no attribute 'add_documents'"))
  | Some id =>
      match clients w !! id with
      | None => Raise (Exn (u "Collection " ++ collection_name ++ u " not found"))
      | Some points =>
          match embed_error env (map page_content chunks) with
          | Some e => Raise e
          | None =>
              let new := map (fun c => MkIndexedVector (embed env (page_content c)) c) chunks in
              Ok (set_clients (<[id := points ++ new]> (clients w)) w)
          end
      end
  end.

(** Modelled from the spec: [retriever.invoke] (langchain's retriever over
    Qdrant, not part of the repository).  The result is up to K = 10 chunks
    of the collection, those at the positions the search selects, in rank
    order; on an empty collection it is the empty set and never an error. *)
Definition retriever_invoke (question : str) (w : world) : outcome (list Document) :=
  match retriever w with
  | None => Raise (Exn (u "'NoneType' object has no attribute 'invoke'"))
  | Some id =>
      match clients w !! id with
      | None => Raise (Exn (u "Collection " ++ collection_name ++ u " not found"))
      | Some [] => Ok []
      | Some points =>
          search env points question >>= fun positions =>
          Ok (take 10 (omap (fun i => iv_chunk <$> points !! i) positions))
      end
  end.

(** *** [initialize_components] *)

(** [api_key] is [os.getenv("OPENAI_API_KEY")]. *)
Definition initialize_components (api_key : option str) (w : world)
  : outcome str * world :=
  match api_key with
  | None | Some [] =>
      (Raise (Exn (u "OPENAI_API_KEY not found in environment variables!")), w)
  | Some _ =>
      match new_client (set_models w) with
      | (Raise e, w) => (Raise e, w)
      | (Ok id, w) =>
          (Ok msg_initialized, set_retriever (Some id) (set_vectorstore (Some id) w))
      end
  end.

(** *** [load_document] *)

(** [s.strip()] is truthy. *)
Definition nonblank (s : str) : bool := negb (bool_decide (strip s = [])).

Definition source_metadata (file_path : str) : gmap str pyval :=
  {[ u "source" := PStr (name (of_str file_path)) ]}.

Definition load_docx (file_path : str) : outcome (list Document) :=
  DocxDocument env file_path >>= fun doc =>
  let text_content := filter (fun t => nonblank t = true) (paragraphs doc) in
  let text_content :=
    text_content ++ filter (fun t => nonblank t = true) (concat (concat (tables doc))) in
  let full_text := join [nl] text_content in
  if negb (nonblank full_text) then Raise (Exn (u "Document appears to be empty"))
  else Ok [MkDocument full_text (source_metadata file_path)].

Definition slide_block (numbered : nat * Slide) : list str :=
  let '(slide_num, slide) := numbered in
  let slide_text :=
    omap (fun shape : Shape =>
            match shape with
            | Some t => if nonblank t then Some t else None
            | None => None
            end) slide in
  match slide_text with
  | [] => []
  | _ => [u "Slide " ++ str_of_nat slide_num ++ u ":" ++ [nl] ++ join [nl] slide_text]
  end.

Definition load_pptx (file_path : str) : outcome (list Document) :=
  Presentation env file_path >>= fun slides =>
  let text_content := concat (map slide_block (enumerate 1 slides)) in
  let full_text := join [nl; nl] text_content in
  if negb (nonblank full_text) then Raise (Exn (u "Presentation appears to be empty"))
  else Ok [MkDocument full_text (source_metadata file_path)].

Definition load_by_extension (file_path : str) : outcome (list Document) :=
  let file_ext := lower (suffix (of_str file_path)) in
  if bool_decide (file_ext = u ".pdf") then PyPDFLoader_load env file_path
  else if bool_decide (file_ext = u ".doc") || bool_decide (file_ext = u ".docx") then
    load_docx file_path
  else if bool_decide (file_ext = u ".ppt") || bool_decide (file_ext = u ".pptx") then
    load_pptx file_path
  else if bool_decide (file_ext = u ".txt") then TextLoader_load env file_path
  else Raise (Exn (u "Unsupported file type: " ++ file_ext)).

Definition load_document (file_path : str) : outcome (list Document) :=
  match load_by_extension file_path with
  | Ok documents => Ok documents
  | Raise e =>
      Raise (Exn (u "Error loading document " ++ file_path ++ u ": " ++ exn_msg e))
  end.

(** *** [index_documents] *)

(** The three lists the loop over the uploaded files fills. *)
Record loaded := MkLoaded {
  all_documents : list Document;
  processed_files : list str;
  errors : list str
}.

(** [doc.metadata["source"] = filename; doc.metadata["file_path"] = file_path] *)
Definition tag_document (filename file_path : str) (doc : Document) : Document :=
  MkDocument (page_content doc)
    (<[u "file_path" := PStr file_path]> (<[u "source" := PStr filename]> (metadata doc))).

(** One turn of the loop [for file in files]. *)
Definition process_file (st : loaded * world) (file : option upload) : loaded * world :=
  let '(acc, w) := st in
  match file with
  | None => (acc, w)
  | Some f =>
      let file_path := upload_path f in
      let w := log (ELoad file_path) w in
      match load_document file_path with
      | Ok docs =>
          let filename := name (of_str file_path) in
          ({| all_documents := all_documents acc ++ map (tag_document filename file_path) docs;
              processed_files := processed_files acc ++ [filename];
              errors := errors acc |}, w)
      | Raise e =>
          ({| all_documents := all_documents acc;
              processed_files := processed_files acc;
              errors := errors acc ++ [name (of_str file_path) ++ u ": " ++ exn_msg e] |}, w)
      end
  end.

Definition process_files (files : list (option upload)) (w : world) : loaded * world :=
  fold_left process_file files (MkLoaded [] [] [], w).

(** [if "chunk_index" not in chunk.metadata: chunk.metadata["chunk_index"] = idx] *)
Definition number_chunk (numbered : nat * Document) : Document :=
  let '(idx, chunk) := numbered in
  match metadata chunk !! u "chunk_index" with
  | Some _ => chunk
  | None =>
      MkDocument (page_content chunk)
        (<[u "chunk_index" := PInt (Z.of_nat idx)]> (metadata chunk))
  end.

Definition make_chunks (documents : list Document) : list Document :=
  map number_chunk (enumerate 0 (split_documents env documents)).

Definition index_documents (files : list (option upload)) (w : world) : str * world :=
  match files with
  | [] => (msg_upload, w)
  | _ =>
      match vectorstore w with
      | None => (msg_not_initialized, w)
      | Some _ =>
          let '(acc, w) := process_files files w in
          match all_documents acc with
          | [] =>
              let error_msg := msg_no_documents in
              let error_msg :=
                match errors acc with
                | [] => error_msg
                | _ => error_msg ++ [nl] ++ u "Errors:" ++ [nl] ++ bullet_list (errors acc)
                end in
              (error_msg, w)
          | _ =>
              let w := log (ESplit (all_documents acc)) w in
              let chunks := make_chunks (all_documents acc) in
              let w := log (EAdd chunks) w in
              match add_documents chunks w with
              | Ok w =>
                  let w := set_retriever (vectorstore w) w in
                  let success_msg :=
                    u "✅ Successfully indexed " ++ str_of_nat (length chunks)
                    ++ u " chunks from " ++ str_of_nat (length (processed_files acc))
                    ++ u " file(s)!" ++ [nl; nl] in
                  let success_msg :=
                    success_msg ++ u "Files processed:" ++ [nl]
                    ++ bullet_list (processed_files acc) in
                  let success_msg :=
                    match errors acc with
                    | [] => success_msg
                    | _ => success_msg ++ [nl; nl] ++ u "⚠️ Errors:" ++ [nl]
                           ++ bullet_list (errors acc)
                    end in
                  (success_msg, w)
              | Raise e => (u "❌ Error indexing documents: " ++ exn_msg e, w)
              end
          end
      end
  end.

(** The error lines of a batch: one per file whose loading raises, in
    upload order. *)
Definition load_error (file : option upload) : option str :=
  match file with
  | None => None
  | Some f =>
      match load_document (upload_path f) with
      | Ok _ => None
      | Raise e => Some (name (of_str (upload_path f)) ++ u ": " ++ exn_msg e)
      end
  end.

Definition load_errors (files : list (option upload)) : list str := omap load_error files.

(** What a file that loads contributes: its name, and its documents tagged
    with that name and its path. *)
Definition loaded_of (file : option upload) : option (str * list Document) :=
  match file with
  | None => None
  | Some f =>
      match load_document (upload_path f) with
      | Ok docs =>
          let filename := name (of_str (upload_path f)) in
          Some (filename, map (tag_document filename (upload_path f)) docs)
      | Raise _ => None
      end
  end.

Definition loaded_names (files : list (option upload)) : list str :=
  map fst (omap loaded_of files).

Definition loaded_documents (files : list (option upload)) : list Document :=
  concat (map snd (omap loaded_of files)).

(** The paths of the files of a batch, in upload order. *)
Definition uploaded_paths (files : list (option upload)) : list str :=
  omap (fun file => upload_path <$> file) files.

(** *** [query_rag] *)

Definition history_t := list (str * str).

Definition query_error (question : str) (history : history_t) (e : exn) : str * history_t :=
  let error_msg := u "❌ Error processing query: " ++ exn_msg e in
  ([], history ++ [(question, error_msg)]).

Definition query_rag (question : str) (history : history_t) (w : world)
  : (str * history_t) * world :=
  if negb (nonblank question) then (([], history), w)
  else if bool_decide (retriever w = None) || negb (llm w) then
    ((msg_initialize_first, history), w)
  else
    let w := log (ERetrieve question) w in
    match retriever_invoke question w with
    | Raise e => (query_error question history e, w)
    | Ok [] => ((msg_no_relevant, history), w)
    | Ok docs =>
        let sources_dict := group_by_source docs in
        let context := build_context sources_dict in
        let w := log (EChat (slice_to context_window context) question) w in
        match llm_invoke env (prompt_messages (slice_to context_window context) question) with
        | Raise e => (query_error question history e, w)
        | Ok answer =>
            let answer_with_sources := answer ++ sources_section sources_dict docs in
            (([], history ++ [(question, answer_with_sources)]), w)
        end
    end.

(** *** [clear_index] *)

Definition clear_index (w : world) : str * world :=
  match new_client w with
  | (Ok id, w) =>
      (msg_cleared, set_retriever (Some id) (set_vectorstore (Some id) w))
  | (Raise e, w) => (u "❌ Error clearing index: " ++ exn_msg e, w)
  end.

End Pipeline.

Arguments clients {env} _.
Arguments embeddings {env} _.
Arguments llm {env} _.
Arguments vectorstore {env} _.
Arguments retriever {env} _.
Arguments calls {env} _.
Arguments log {env} _ _.
Arguments set_clients {env} _ _.
Arguments set_retriever {env} _ _.
Arguments set_vectorstore {env} _ _.
Arguments set_models {env} _.

End Rag.

(** ** Sample deployments

    Concrete third-party behaviours, on which the operations can be run. *)

Module Samples.
Import Pathlib Rag.

Definition notes_text : str :=
  u "Paris is the capital of France. Lyon is a major city.".

(** A text loader over three files: [notes.txt], the empty [empty.txt] and
    the blank [blank.txt]; any other path cannot be opened.  As langchain's
    [TextLoader] does, it gives one document holding the whole text, with
    the path as its source. *)
Definition text_files (file_path : str) : outcome (list Document) :=
  let doc text := Ok [MkDocument text {[ u "source" := PStr file_path ]}] in
  if bool_decide (file_path = u "/tmp/notes.txt") then doc notes_text
  else if bool_decide (file_path = u "/tmp/empty.txt") then doc []
  else if bool_decide (file_path = u "/tmp/blank.txt") then doc (u "  " ++ [nl])
  else Raise (Exn (u "Error loading " ++ file_path)).

Definition no_pdf (file_path : str) : outcome (list Document) :=
  Raise (Exn (u "File path " ++ file_path ++ u " is not a valid file or url")).

(** A deployment in which every external call succeeds: texts short enough
    to be one chunk each, a search that ranks the points in stored order,
    and a chat model with one answer. *)
Definition env_ok : Env :=
  {| vector := unit;
     PyPDFLoader_load := no_pdf;
     TextLoader_load := text_files;
     DocxDocument := fun _ => Ok (MkDocx [u "  "] [[[u ""; u " "]]]);
     Presentation := fun _ => Ok [[Some (u "Title"); None]; [Some (u " ")]];
     split_documents := fun docs => docs;
     embed := fun _ => tt;
     embed_error := fun _ => None;
     search := fun points _ => Ok (seq 0 (length points));
     llm_invoke := fun _ => Ok (u "Paris is the capital of France (notes.txt).");
     create_collection_error := None |}.

(** The same deployment with a vector search that times out. *)
Definition env_search_fails : Env :=
  {| vector := unit;
     PyPDFLoader_load := no_pdf;
     TextLoader_load := text_files;
     DocxDocument := DocxDocument env_ok;
     Presentation := Presentation env_ok;
     split_documents := fun docs => docs;
     embed := fun _ => tt;
     embed_error := fun _ => None;
     search := fun _ _ => Raise (Exn (u "timed out"));
     llm_invoke := llm_invoke env_ok;
     create_collection_error := None |}.

(** The same deployment with a chat model that refuses the request. *)
Definition env_chat_fails : Env :=
  {| vector := unit;
     PyPDFLoader_load := no_pdf;
     TextLoader_load := text_files;
     DocxDocument := DocxDocument env_ok;
     Presentation := Presentation env_ok;
     split_documents := fun docs => docs;
     embed := fun _ => tt;
     embed_error := fun _ => None;
     search := search env_ok;
     llm_invoke := fun _ => Raise (Exn (u "Rate limit reached"));
     create_collection_error := None |}.

(** The same deployment with an embedding request that is refused. *)
Definition env_embed_fails : Env :=
  {| vector := unit;
     PyPDFLoader_load := no_pdf;
     TextLoader_load := text_files;
     DocxDocument := DocxDocument env_ok;
     Presentation := Presentation env_ok;
     split_documents := fun docs => docs;
     embed := fun _ => tt;
     embed_error := fun _ => Some (Exn (u "Incorrect API key provided"));
     search := search env_ok;
     llm_invoke := llm_invoke env_ok;
     create_collection_error := None |}.

(** The same deployment with a collection that cannot be created. *)
Definition env_create_fails : Env :=
  {| vector := unit;
     PyPDFLoader_load := no_pdf;
     TextLoader_load := text_files;
     DocxDocument := DocxDocument env_ok;
     Presentation := Presentation env_ok;
     split_documents := fun docs => docs;
     embed := fun _ => tt;
     embed_error := fun _ => None;
     search := search env_ok;
     llm_invoke := llm_invoke env_ok;
     create_collection_error := Some (Exn (u "Storage is not available")) |}.

Definition upload_of (s : string) : option upload := Some (FilePath (u s)).

(** The application after start-up, and after [notes.txt] was indexed. *)
Definition started (env : Env) : world env :=
  snd (initialize_components env (Some (u "sk-test")) (boot env)).

Definition indexed_notes (env : Env) : world env :=
  snd (index_documents env [upload_of "/tmp/notes.txt"] (started env)).

Definition doc_from (source content : string) : Document :=
  MkDocument (u content) {[ u "source" := PStr (u source) ]}.

(** Four retrieved chunks of three documents, the chunks of [a.txt] apart
    and the chunk of [b.txt] long enough for the context to be cut. *)
Definition long_chunk : Document :=
  MkDocument (replicate 7000 120) {[ u "source" := PStr (u "b.txt") ]}.

Definition four_chunks : list Document :=
  [doc_from "a.txt" "alpha"; long_chunk; doc_from "a.txt" "beta"; doc_from "c.txt" "gamma"].

(** An application whose collection holds the given chunks. *)
Definition holding (chunks : list Document) : world env_ok :=
  {| clients := [map (MkIndexedVector (tt : vector env_ok)) chunks];
     embeddings := true; llm := true;
     vectorstore := Some 0%nat; retriever := Some 0%nat; calls := [] |}.

End Samples.

(** * Properties *)

(** ** The MCP tool server *)

Module McpFacts.
Import Pathlib Mcp.

(** The check of [validate_path_within_project] decides every answer: a
    request whose resolved path fails it is denied, whatever the file system
    holds. *)
Lemma read_file_denied_when_check_fails (script_file : str) (cwd : list str) (fs : node) (arguments : gmap str pyval) requested :
  arguments !! u "filepath" = Some (PStr requested) ->
  has_nul (joinpath (get_project_root script_file) (of_str requested)) = false ->
  validate_path_within_project cwd
    (resolved_request script_file cwd requested) (get_project_root script_file) = false ->
  handle_read_file script_file cwd fs arguments = denied_file.
Proof.
  intros Harg Hnul Hcheck.
  unfold handle_read_file, read_file_body. rewrite Harg.
  cbn [from_option]. unfold id. cbn [truediv bind].
  unfold resolve_or_raise. rewrite Hnul. cbn [bind].
  unfold resolved_request in Hcheck. rewrite Hcheck. reflexivity.
Qed.

(** The scenario of the specification: under project root [/app], the path
    [../../etc/passwd] is denied. *)
Lemma read_file_etc_passwd_denied (cwd : list str) (fs : node) :
  handle_read_file app_script cwd fs {[ u "filepath" := PStr (u "../../etc/passwd") ]}
  = denied_file.
Proof.
  apply read_file_denied_when_check_fails with (requested := u "../../etc/passwd").
  - vm_compute. reflexivity.
  - vm_compute. reflexivity.
  - vm_compute. reflexivity.
Qed.

(** A request with a NUL character is answered with the error that
    [resolve] raises, whatever the path; it is neither read nor denied. *)
Lemma read_file_nul_is_an_error (script_file : str) (cwd : list str) (fs : node) requested :
  has_nul (joinpath (get_project_root script_file) (of_str requested)) = true ->
  handle_read_file script_file cwd fs {[ u "filepath" := PStr requested ]}
  = [text_content (u "Error reading file: " ++ u "embedded null byte")].
Proof.
  intros Hnul. unfold handle_read_file, read_file_body. rewrite lookup_singleton_eq.
  cbn [from_option]. unfold id. cbn [truediv bind].
  unfold resolve_or_raise. rewrite Hnul. reflexivity.
Qed.

(** A handler answers with a text content in every case; a missing or
    ill-typed argument is reported, not raised. *)
Lemma read_file_missing_argument (script_file : str) (cwd : list str) (fs : node) :
  exists message, handle_read_file script_file cwd fs ∅
                  = [text_content (u "Error reading file: " ++ message)].
Proof. eexists. unfold handle_read_file. rewrite lookup_empty. reflexivity. Qed.

(** C1 (fails on the code).  The containment check compares the resolved
    path and the project root as strings.  With the project at [/app], the
    request [../app2/secret.txt] resolves to [/app2/secret.txt], which is
    outside the project root and still starts with the text [/app]:
    [read_file] returns the file's contents and [list_files] lists the
    directory, where the specification asks for a denial. *)
Theorem read_file_sibling_directory_not_denied :
  let arguments : gmap str pyval := {[ u "filepath" := PStr (u "../app2/secret.txt") ]} in
  let listing : gmap str pyval := {[ u "directory" := PStr (u "../app2") ]} in
  ~ inside_project app_script [] (resolved_request app_script [] (u "../app2/secret.txt"))
  /\ ~ inside_project app_script [] (resolved_request app_script [] (u "../app2"))
  /\ handle_read_file app_script [] sample_fs arguments
     = [text_content (u "File contents of ../app2/secret.txt:" ++ [nl; nl] ++ u "s3cret")]
  /\ handle_list_files app_script [] sample_fs listing
     = [text_content (u "Files in ../app2:" ++ [nl; nl] ++ u "Files:" ++ [nl]
                      ++ u "  - secret.txt")].
Proof.
  split; [|split; [|split]].
  - intros [rest H]. vm_compute in H. discriminate H.
  - intros [rest H]. vm_compute in H. discriminate H.
  - vm_compute. reflexivity.
  - vm_compute. reflexivity.
Qed.

End McpFacts.

(** ** The RAG application *)

Module RagFacts.
Import Pathlib Rag Samples.

Lemma nonblank_true s : nonblank s = true <-> strip s <> [].
Proof.
  unfold nonblank. rewrite negb_true_iff, bool_decide_eq_false. reflexivity.
Qed.

Lemma nonblank_false s : nonblank s = false <-> strip s = [].
Proof.
  unfold nonblank. rewrite negb_false_iff, bool_decide_eq_true. reflexivity.
Qed.

(** *** Loading *)

Section Loading.

Variable env : Env.

(** The text and PDF branches hand back what the library loader gives,
    without looking at it. *)
Lemma load_document_txt file_path documents :
  lower (suffix (of_str file_path)) = u ".txt" ->
  TextLoader_load env file_path = Ok documents ->
  load_document env file_path = Ok documents.
Proof.
  intros Hext Hload. unfold load_document, load_by_extension. rewrite Hext, Hload.
  reflexivity.
Qed.

Lemma load_document_pdf file_path documents :
  lower (suffix (of_str file_path)) = u ".pdf" ->
  PyPDFLoader_load env file_path = Ok documents ->
  load_document env file_path = Ok documents.
Proof.
  intros Hext Hload. unfold load_document, load_by_extension. rewrite Hext, Hload.
  reflexivity.
Qed.

(** The Word and PowerPoint branches do reject a text that is empty or
    blank: what they return is one document with some visible text. *)
Lemma load_docx_nonblank file_path documents :
  load_docx env file_path = Ok documents ->
  exists text, documents = [MkDocument text (source_metadata file_path)] /\ strip text <> [].
Proof.
  unfold load_docx. destruct (DocxDocument env file_path) as [doc|e]; [|discriminate].
  cbn [bind]. cbv zeta.
  destruct (nonblank _) eqn:Hnb; cbn [negb]; [|discriminate].
  intros [= <-]. eexists. split; [reflexivity|]. apply nonblank_true. exact Hnb.
Qed.

Lemma load_pptx_nonblank file_path documents :
  load_pptx env file_path = Ok documents ->
  exists text, documents = [MkDocument text (source_metadata file_path)] /\ strip text <> [].
Proof.
  unfold load_pptx. destruct (Presentation env file_path) as [slides|e]; [|discriminate].
  cbn [bind]. cbv zeta.
  destruct (nonblank _) eqn:Hnb; cbn [negb]; [|discriminate].
  intros [= <-]. eexists. split; [reflexivity|]. apply nonblank_true. exact Hnb.
Qed.

End Loading.

(** C4 (fails on the code).  An empty text file, and one holding only
    spaces and a newline, load as a document with that content: the [.txt]
    branch returns what [TextLoader] gives and has no emptiness test, unlike
    the Word and PowerPoint branches. *)
Theorem load_document_accepts_empty_text :
  load_document env_ok (u "/tmp/empty.txt")
  = Ok [MkDocument [] {[ u "source" := PStr (u "/tmp/empty.txt") ]}]
  /\ load_document env_ok (u "/tmp/blank.txt")
     = Ok [MkDocument (u "  " ++ [nl]) {[ u "source" := PStr (u "/tmp/blank.txt") ]}]
  /\ strip (u "  " ++ [nl]) = [].
Proof.
  split; [|split].
  - apply load_document_txt; vm_compute; reflexivity.
  - apply load_document_txt; vm_compute; reflexivity.
  - vm_compute. reflexivity.
Qed.

(** *** Grouping *)

Lemma elem_of_first_seen (x : pyval) l : x ∈ first_seen l <-> x ∈ l.
Proof.
  induction l as [|a l IH]; simpl; [reflexivity|].
  rewrite !elem_of_cons, list_elem_of_filter, IH.
  destruct (decide (x = a)); tauto.
Qed.

Lemma NoDup_first_seen l : NoDup (first_seen l).
Proof.
  induction l as [|a l IH]; simpl; [constructor|].
  constructor.
  - rewrite list_elem_of_filter. tauto.
  - apply NoDup_filter. exact IH.
Qed.

Lemma first_seen_snoc l (x : pyval) :
  first_seen (l ++ [x]) = if decide (x ∈ l) then first_seen l else first_seen l ++ [x].
Proof.
  induction l as [|a l IH]; simpl.
  - destruct (decide (x ∈ [])) as [H|_]; [inversion H|reflexivity].
  - rewrite IH. destruct (decide (x ∈ l)) as [Hin|Hnin].
    + rewrite decide_True by (rewrite elem_of_cons; tauto). reflexivity.
    + rewrite filter_app, filter_cons, filter_nil.
      destruct (decide (x ∈ a :: l)) as [Hin'|Hnin'];
        destruct (decide (x <> a)) as [Hne|Heq].
      * rewrite elem_of_cons in Hin'. tauto.
      * rewrite app_nil_r. reflexivity.
      * reflexivity.
      * exfalso. apply Hnin'. rewrite elem_of_cons. left.
        destruct (decide (x = a)); tauto.
Qed.

Lemma chunks_from_snoc source docs doc :
  chunks_from source (docs ++ [doc])
  = chunks_from source docs ++ (if decide (source_of doc = source) then [doc] else []).
Proof.
  unfold chunks_from. rewrite filter_app, filter_cons, filter_nil. reflexivity.
Qed.

Lemma chunks_from_absent source docs :
  source ∉ map source_of docs -> chunks_from source docs = [].
Proof.
  induction docs as [|d docs IH]; intros Hnin; [reflexivity|].
  unfold chunks_from. rewrite filter_cons.
  simpl in Hnin. rewrite not_elem_of_cons in Hnin. destruct Hnin as [Hne Hnin].
  rewrite decide_False by congruence. apply IH. exact Hnin.
Qed.

(** Appending to the entry of a key that is there changes that entry only. *)
Lemma append_at_present source doc (f : pyval -> list Document) keys :
  NoDup keys ->
  append_at source doc (map (fun k => (k, f k)) keys)
  = map (fun k => (k, f k ++ (if decide (source = k) then [doc] else []))) keys.
Proof.
  induction keys as [|k keys IH]; intros Hnd; simpl; [reflexivity|].
  apply NoDup_cons in Hnd. destruct Hnd as [Hk Hnd].
  destruct (decide (k = source)) as [->|Hne].
  - rewrite decide_True by reflexivity. f_equal.
    apply map_ext_in. intros k Hin. apply list_elem_of_In in Hin.
    rewrite decide_False by (intros ->; contradiction).
    rewrite app_nil_r. reflexivity.
  - rewrite decide_False by congruence. rewrite app_nil_r. f_equal. apply IH. exact Hnd.
Qed.

Lemma append_at_new source doc (d : sources_dict_t) :
  source ∉ map fst d ->
  append_at source doc (d ++ [(source, [])]) = d ++ [(source, [doc])].
Proof.
  induction d as [|[k v] d IH]; intros Hnin; simpl.
  - rewrite decide_True by reflexivity. reflexivity.
  - simpl in Hnin. rewrite not_elem_of_cons in Hnin. destruct Hnin as [Hne Hnin].
    rewrite decide_False by congruence. f_equal. apply IH. exact Hnin.
Qed.

Lemma groups_of_keys docs : map fst (groups_of docs) = first_seen (map source_of docs).
Proof.
  unfold groups_of. rewrite map_map. simpl. apply map_id.
Qed.

(** The dictionary the loop builds holds the distinct sources in order of
    first occurrence, each with its chunks in retrieval order. *)
Lemma group_by_source_groups docs : group_by_source docs = groups_of docs.
Proof.
  induction docs as [|doc docs IH] using rev_ind; [reflexivity|].
  unfold group_by_source in *. rewrite fold_left_app. cbn [fold_left]. rewrite IH.
  unfold group_step, has_key. rewrite groups_of_keys.
  unfold groups_of at 3. rewrite map_app. cbn [map]. rewrite first_seen_snoc.
  destruct (decide (source_of doc ∈ map source_of docs)) as [Hin|Hnin].
  - rewrite bool_decide_eq_true_2 by (apply elem_of_first_seen; exact Hin).
    unfold groups_of. rewrite append_at_present by apply NoDup_first_seen.
    apply map_ext. intros k. rewrite chunks_from_snoc. reflexivity.
  - rewrite bool_decide_eq_false_2 by (rewrite elem_of_first_seen; exact Hnin).
    rewrite append_at_new by (rewrite groups_of_keys, elem_of_first_seen; exact Hnin).
    rewrite map_app. cbn [map]. f_equal.
    + unfold groups_of. apply map_ext_in. intros k Hk.
      apply list_elem_of_In in Hk. rewrite elem_of_first_seen in Hk.
      rewrite chunks_from_snoc, decide_False, app_nil_r; [reflexivity|].
      intros Heq. apply Hnin. rewrite Heq. exact Hk.
    + rewrite chunks_from_snoc, chunks_from_absent by exact Hnin.
      rewrite decide_True by reflexivity. reflexivity.
Qed.

(** *** The context *)

Lemma length_enumerate {A} (l : list A) : forall start, length (enumerate start l) = length l.
Proof. induction l as [|x l IH]; intros start; simpl; [reflexivity|]. rewrite IH. reflexivity. Qed.

Lemma fold_left_ext {A B} (f g : A -> B -> A) (l : list B) :
  (forall acc x, f acc x = g acc x) ->
  forall acc, fold_left f l acc = fold_left g l acc.
Proof.
  intros Hfg. induction l as [|x l IH]; intros acc; simpl; [reflexivity|].
  rewrite Hfg. apply IH.
Qed.

(** A loop that appends one item per element is a map. *)
Lemma fold_left_snoc_map {A B} (f : A -> B) (l : list A) : forall acc,
  fold_left (fun acc x => acc ++ [f x]) l acc = acc ++ map f l.
Proof.
  induction l as [|x l IH]; intros acc; simpl.
  - rewrite app_nil_r. reflexivity.
  - rewrite IH, <- app_assoc. reflexivity.
Qed.

(** A loop that appends one block per element is a concatenation. *)
Lemma fold_left_app_concat {A B} (f : A -> list B) (l : list A) : forall acc,
  fold_left (fun acc x => acc ++ f x) l acc = acc ++ concat (map f l).
Proof.
  induction l as [|x l IH]; intros acc; simpl.
  - rewrite app_nil_r. reflexivity.
  - rewrite IH, <- app_assoc. reflexivity.
Qed.

Lemma context_parts_concat d : context_parts d = concat (map labelled_chunks d).
Proof.
  unfold context_parts.
  rewrite (fold_left_ext _ (fun parts g => parts ++ labelled_chunks g)).
  - apply (fold_left_app_concat labelled_chunks d []).
  - intros parts [source source_docs]. unfold labelled_chunks. cbn [fst snd].
    rewrite (fold_left_ext _
               (fun parts x => parts ++ [(fun '(idx, doc) => context_part source idx doc) x])).
    + apply fold_left_snoc_map.
    + intros acc [idx doc]. reflexivity.
Qed.

Lemma length_labelled_groups docs :
  length (concat (map labelled_chunks (groups_of docs))) = length docs.
Proof.
  rewrite <- group_by_source_groups.
  induction docs as [|doc docs IH] using rev_ind; [reflexivity|].
  unfold group_by_source in *. rewrite fold_left_app. cbn [fold_left].
  rewrite length_app. cbn [length]. rewrite <- IH. clear IH.
  generalize (fold_left group_step docs []). intros d.
  assert (Happend : forall g, source_of doc ∈ map fst g ->
            length (concat (map labelled_chunks (append_at (source_of doc) doc g)))
            = (length (concat (map labelled_chunks g)) + 1)%nat).
  { induction g as [|[k v] g IHg]; intros Hin; [inversion Hin|].
    cbn [append_at]. destruct (decide (k = source_of doc)) as [Heq|Hne].
    - cbn [map concat]. rewrite !length_app. unfold labelled_chunks at 1 3. cbn [fst snd].
      rewrite !length_map, !length_enumerate, length_app. cbn [length]. lia.
    - cbn [map concat]. rewrite !length_app, IHg; [lia|].
      cbn [map fst] in Hin. rewrite elem_of_cons in Hin. destruct Hin; [congruence|assumption]. }
  unfold group_step, has_key.
  destruct (bool_decide (source_of doc ∈ map fst d)) eqn:Hkey.
  - apply Happend. apply bool_decide_eq_true in Hkey. exact Hkey.
  - rewrite Happend.
    + rewrite map_app, concat_app, length_app. cbn [map concat]. unfold labelled_chunks at 2.
      cbn [snd enumerate map length app]. lia.
    + rewrite map_app. cbn [map fst]. rewrite elem_of_app, elem_of_cons. tauto.
Qed.

Lemma startswith_app p rest : startswith (p ++ rest) p = true.
Proof.
  induction p as [|c p IH]; simpl; [destruct rest; reflexivity|].
  rewrite N.eqb_refl, IH. reflexivity.
Qed.

Lemma labelled_chunks_headers group :
  Forall (fun part => startswith part (u "[Document: ") = true) (labelled_chunks group).
Proof.
  unfold labelled_chunks. apply Forall_map, Forall_forall.
  intros [idx doc] _. unfold context_part. apply startswith_app.
Qed.

Lemma length_slice_to n s : (length (slice_to n s) <= n)%nat.
Proof. unfold slice_to. rewrite length_take. lia. Qed.

(** *** The sources section *)

Lemma sources_section_blocks d docs :
  sources_section d docs
  = sources_header (length d) (length docs) ++ concat (map source_block d).
Proof.
  unfold sources_section. rewrite length_map.
  rewrite (fold_left_ext _ (fun section g => section ++ source_block g)).
  - apply fold_left_app_concat.
  - intros section [source source_docs]. unfold source_block, more_note. cbn [fst snd].
    rewrite (fold_left_ext _ (fun section x => section ++ preview_line x)).
    + rewrite fold_left_app_concat.
      destruct (3 <? length source_docs)%nat; rewrite <- ?app_assoc; reflexivity.
    + intros acc [idx doc]. reflexivity.
Qed.

(** *** Queries *)

Section Queries.

Variable env : Env.
Implicit Types (w : world env) (question : str) (history : history_t).

(** The log plays no part in what the retriever returns. *)
Lemma retriever_invoke_log question ev w :
  retriever_invoke env question (log ev w) = retriever_invoke env question w.
Proof. reflexivity. Qed.

(** C9.  A question that is empty or only whitespace is answered with the
    empty string and the history as it was; nothing else changes: no call
    is logged, so there is neither a retrieval nor a model call, and no turn
    is appended. *)
Theorem blank_question_is_ignored question history w :
  strip question = [] ->
  query_rag env question history w = (([], history), w).
Proof.
  intros Hblank. apply nonblank_false in Hblank.
  unfold query_rag. rewrite Hblank. reflexivity.
Qed.

(** C5.  When the retrieval raises, or the chat model does, the query still
    returns: the answer recorded for the question is the error string, in a
    turn of the same type as any other, appended to the history. *)
Theorem query_error_is_recorded question history w e :
  strip question <> [] ->
  retriever w <> None ->
  llm w = true ->
  (retriever_invoke env question w = Raise e
   \/ exists docs,
        retriever_invoke env question w = Ok docs /\ docs <> []
        /\ llm_invoke env
             (prompt_messages (slice_to context_window (build_context (group_by_source docs))) question)
           = Raise e) ->
  fst (query_rag env question history w)
  = ([], history ++ [(question, u "❌ Error processing query: " ++ exn_msg e)]).
Proof.
  intros Hq Hr Hllm Herr. apply nonblank_true in Hq.
  unfold query_rag. rewrite Hq, Hllm, retriever_invoke_log. simpl.
  rewrite bool_decide_eq_false_2 by assumption. simpl.
  destruct Herr as [Hret | (docs & Hret & Hne & Hchat)]; rewrite Hret.
  - reflexivity.
  - destruct docs as [|doc docs]; [contradiction|].
    rewrite Hchat. reflexivity.
Qed.

(** After a successful [clear_index] the store and the retriever are built
    on a client of their own, whose collection is empty. *)
Lemma clear_index_fresh w :
  fst (clear_index env w) = msg_cleared ->
  let w' := snd (clear_index env w) in
  retriever w' = Some (length (clients w))
  /\ vectorstore w' = Some (length (clients w))
  /\ clients w' = clients w ++ [[]]
  /\ llm w' = llm w.
Proof.
  unfold clear_index, new_client.
  destruct (create_collection_error env) as [e|]; simpl.
  - intros H. vm_compute in H. discriminate H.
  - intros _. repeat split.
Qed.

(** C8.  Once [clear_index] has completed, a question retrieves from the
    empty collection of the new client: the retrieved set is empty, and the
    query returns the no-documents message with the history as it was, not
    an error turn. *)
Theorem query_after_clear_finds_nothing question history w :
  fst (clear_index env w) = msg_cleared ->
  llm w = true ->
  strip question <> [] ->
  let w' := snd (clear_index env w) in
  retriever_invoke env question w' = Ok []
  /\ fst (query_rag env question history w') = (msg_no_relevant, history).
Proof.
  intros Hclear Hllm Hq w'.
  destruct (clear_index_fresh w Hclear) as (Hr & _ & Hcs & Hllm').
  fold w' in Hr, Hcs, Hllm'.
  assert (Hinv : retriever_invoke env question w' = Ok []).
  { unfold retriever_invoke. rewrite Hr, Hcs.
    rewrite lookup_app_r by reflexivity.
    replace (length (clients w) - length (clients w))%nat with 0%nat by lia.
    reflexivity. }
  split; [exact Hinv|].
  apply nonblank_true in Hq.
  unfold query_rag. rewrite Hq, Hllm', Hllm, retriever_invoke_log, Hinv, Hr.
  reflexivity.
Qed.

(** A query that reaches the retriever. *)
Lemma query_rag_retrieves question history w :
  strip question <> [] -> retriever w <> None -> llm w = true ->
  query_rag env question history w =
    let w := log (ERetrieve question) w in
    match retriever_invoke env question w with
    | Raise e => (query_error question history e, w)
    | Ok [] => ((msg_no_relevant, history), w)
    | Ok docs =>
        let context := build_context (group_by_source docs) in
        let w := log (EChat (slice_to context_window context) question) w in
        match llm_invoke env (prompt_messages (slice_to context_window context) question) with
        | Raise e => (query_error question history e, w)
        | Ok answer =>
            (([], history ++ [(question, answer ++ sources_section (group_by_source docs) docs)]), w)
        end
    end.
Proof.
  intros Hq Hr Hllm. apply nonblank_true in Hq.
  unfold query_rag. rewrite Hq, Hllm.
  rewrite bool_decide_eq_false_2 by assumption. reflexivity.
Qed.

(** C3 (as amended).  For a query that retrieves the chunks [docs], the
    context is built from one labelled part per chunk, [length docs] parts in
    all and each opening with its own [[Document: ...]] header: the parts of
    the distinct sources in order of first occurrence, and within a source
    its chunks in retrieval order, numbered from 1.  The chat model is
    called on the prompt filled with the first 6000 characters of the parts
    joined, and with nothing else of the context: what it is passed of the
    context is at most 6000 characters long, and the turn recorded is what
    the model returns for it. *)
Theorem context_has_one_header_per_chunk question history w docs :
  strip question <> [] -> retriever w <> None -> llm w = true ->
  retriever_invoke env question w = Ok docs -> docs <> [] ->
  let groups := groups_of docs in
  let parts := concat (map labelled_chunks groups) in
  let context := join context_separator parts in
  let passed := slice_to context_window context in
  length groups = length (first_seen (map source_of docs))
  /\ length parts = length docs
  /\ Forall (fun part => startswith part (u "[Document: ") = true) parts
  /\ fst (query_rag env question history w)
     = match llm_invoke env (prompt_messages passed question) with
       | Ok answer =>
           ([], history ++ [(question, answer ++ sources_section (group_by_source docs) docs)])
       | Raise e => query_error question history e
       end
  /\ calls (snd (query_rag env question history w))
     = calls w ++ [ERetrieve question; EChat passed question]
  /\ passed = take 6000 context
  /\ (length passed <= 6000)%nat.
Proof.
  intros Hq Hr Hllm Hret Hne groups parts context passed.
  split; [apply length_map|].
  split; [apply length_labelled_groups|].
  split; [apply Forall_concat, Forall_map, Forall_forall; intros g _; apply labelled_chunks_headers|].
  assert (Hrun : query_rag env question history w
                 = match llm_invoke env (prompt_messages passed question) with
                   | Ok answer =>
                       (([], history ++ [(question,
                                          answer ++ sources_section (group_by_source docs) docs)]),
                        log (EChat passed question) (log (ERetrieve question) w))
                   | Raise e =>
                       (query_error question history e,
                        log (EChat passed question) (log (ERetrieve question) w))
                   end).
  { rewrite query_rag_retrieves by assumption. cbv zeta.
    change (retriever_invoke env question (log (ERetrieve question) w))
      with (retriever_invoke env question w).
    rewrite Hret. destruct docs as [|doc docs]; [contradiction|].
    unfold build_context. rewrite context_parts_concat, group_by_source_groups.
    fold groups parts context passed. reflexivity. }
  rewrite Hrun.
  split; [destruct (llm_invoke env _); reflexivity|].
  split; [destruct (llm_invoke env _); cbn [snd calls log]; rewrite <- app_assoc; reflexivity|].
  split; [reflexivity|apply length_slice_to].
Qed.

(** C6 (as amended).  A successful query records, as the answer, the model's
    answer followed by the sources section: the header with the number of
    distinct sources and the number of chunks, then one block per source in
    order of first occurrence, holding a preview line for each of its first
    three chunks and, when it has more, the note with the number left.  A
    preview is the first 150 characters with newlines replaced by spaces and
    then stripped of leading and trailing whitespace, followed by an ellipsis
    when the chunk is longer than 150 characters. *)
Theorem answer_ends_with_sources_section question history w docs answer :
  strip question <> [] -> retriever w <> None -> llm w = true ->
  retriever_invoke env question w = Ok docs -> docs <> [] ->
  llm_invoke env
    (prompt_messages (slice_to context_window (build_context (group_by_source docs))) question)
  = Ok answer ->
  fst (query_rag env question history w)
  = ([], history ++
         [(question,
           answer
           ++ sources_header (length (first_seen (map source_of docs))) (length docs)
           ++ concat (map source_block (groups_of docs)))])
  /\ Forall (fun group => (length (enumerate 1 (take 3 (snd group))) <= 3)%nat) (groups_of docs)
  /\ forall doc,
       chunk_preview doc
       = strip (replace_char nl space (slice_to 150 (page_content doc)))
         ++ (if (150 <? length (page_content doc))%nat then u "..." else []).
Proof.
  intros Hq Hr Hllm Hret Hne Hanswer.
  split; [|split].
  - rewrite query_rag_retrieves by assumption. cbv zeta.
    change (retriever_invoke env question (log (ERetrieve question) w))
      with (retriever_invoke env question w).
    rewrite Hret. destruct docs as [|doc docs]; [contradiction|].
    rewrite Hanswer. cbn [fst].
    rewrite sources_section_blocks, group_by_source_groups.
    unfold groups_of at 1. rewrite length_map. reflexivity.
  - apply Forall_forall. intros group _.
    rewrite length_enumerate, length_take. lia.
  - intros doc. unfold chunk_preview.
    destruct (150 <? length (page_content doc))%nat; [|rewrite app_nil_r]; reflexivity.
Qed.

End Queries.

(** *** Indexing *)

Section Indexing.

Variable env : Env.
Implicit Types (w : world env) (files : list (option upload)) (acc : loaded).

(** The loop over the files only logs its load attempts: it leaves the
    globals alone. *)
Lemma process_files_world files : forall acc w,
  let r := fold_left (process_file env) files (acc, w) in
  clients (snd r) = clients w
  /\ vectorstore (snd r) = vectorstore w
  /\ retriever (snd r) = retriever w
  /\ calls (snd r) = calls w ++ map ELoad (uploaded_paths files).
Proof.
  induction files as [|file files IH]; intros acc w; simpl.
  - rewrite app_nil_r. repeat split.
  - destruct file as [f|]; simpl.
    + destruct (load_document env (upload_path f)) as [docs|e];
        match goal with
        | |- context [fold_left _ files (?a, ?w')] =>
            destruct (IH a w') as (Hc & Hv & Hr & Hl)
        end;
        rewrite Hc, Hv, Hr, Hl; simpl; rewrite <- app_assoc; repeat split.
    + apply IH.
Qed.

(** What the loop collects does not depend on the globals. *)
Lemma process_files_loaded files : forall acc w w',
  fst (fold_left (process_file env) files (acc, w))
  = fst (fold_left (process_file env) files (acc, w')).
Proof.
  induction files as [|file files IH]; intros acc w w'; simpl; [reflexivity|].
  destruct file as [f|]; simpl; [|apply IH].
  destruct (load_document env (upload_path f)); apply IH.
Qed.

(** When no file gives a document, the loop collects no document and one
    error line per load that raised. *)
Lemma process_files_nothing files :
  (forall f docs, Some f ∈ files -> load_document env (upload_path f) = Ok docs -> docs = []) ->
  forall acc w,
    let r := fold_left (process_file env) files (acc, w) in
    all_documents (fst r) = all_documents acc
    /\ errors (fst r) = errors acc ++ load_errors env files.
Proof.
  induction files as [|file files IH]; intros Hnone acc w; simpl.
  - rewrite app_nil_r. split; reflexivity.
  - assert (Hrest : forall f docs, Some f ∈ files ->
                      load_document env (upload_path f) = Ok docs -> docs = []).
    { intros f docs Hin. apply Hnone. right. exact Hin. }
    destruct file as [f|]; simpl.
    + unfold load_errors. simpl.
      destruct (load_document env (upload_path f)) as [docs|e] eqn:Hload.
      * rewrite (Hnone f docs (list_elem_of_here _ _) Hload). simpl.
        match goal with
        | |- context [fold_left _ files (?a, ?w')] =>
            destruct (IH Hrest a w') as (Ha & He)
        end.
        rewrite Ha, He. simpl. rewrite app_nil_r. split; reflexivity.
      * match goal with
        | |- context [fold_left _ files (?a, ?w')] =>
            destruct (IH Hrest a w') as (Ha & He)
        end.
        rewrite Ha, He. simpl. rewrite <- app_assoc. split; reflexivity.
    + apply IH. exact Hrest.
Qed.

(** C10.  When no uploaded file gives a document (no file at all, only
    missing files, loads that raise or come back empty), [index_documents]
    returns a warning: one of the two early messages, or the no-documents
    message followed by the error line of every load that raised.  The
    clients and their collections, the store and the retriever are as
    before, and the only calls made are load attempts: nothing is split and
    nothing is added to the vector store. *)
Theorem index_nothing_loadable files w :
  (forall f docs, Some f ∈ files -> load_document env (upload_path f) = Ok docs -> docs = []) ->
  let r := index_documents env files w in
  clients (snd r) = clients w
  /\ vectorstore (snd r) = vectorstore w
  /\ retriever (snd r) = retriever w
  /\ (exists loads, calls (snd r) = calls w ++ map ELoad loads)
  /\ fst r =
       match files with
       | [] => msg_upload
       | _ =>
           match vectorstore w with
           | None => msg_not_initialized
           | Some _ =>
               msg_no_documents
               ++ match load_errors env files with
                  | [] => []
                  | errs => [nl] ++ u "Errors:" ++ [nl] ++ bullet_list errs
                  end
           end
       end.
Proof.
  intros Hnone r. subst r. unfold index_documents.
  destruct files as [|file files].
  { split; [reflexivity|]. split; [reflexivity|]. split; [reflexivity|].
    split; [|reflexivity].
    exists []. cbn [snd map]. rewrite app_nil_r. reflexivity. }
  destruct (vectorstore w) as [id|] eqn:Hvs.
  2:{ cbn [fst snd]. rewrite Hvs.
      split; [reflexivity|]. split; [reflexivity|]. split; [reflexivity|].
      split; [|reflexivity].
      exists []. cbn [map]. rewrite app_nil_r. reflexivity. }
  unfold process_files.
  pose proof (process_files_world (file :: files) (MkLoaded [] [] []) w) as Hw.
  pose proof (process_files_nothing (file :: files) Hnone (MkLoaded [] [] []) w) as Hl.
  cbv zeta in Hw, Hl.
  destruct (fold_left (process_file env) (file :: files) (MkLoaded [] [] [], w)) as [acc w'].
  cbn [fst snd all_documents errors] in Hw, Hl.
  destruct Hw as (Hc & Hv & Hr & Hlog). destruct Hl as (Ha & He).
  cbv beta iota zeta. rewrite Ha. cbn [fst snd]. rewrite Hc, Hv, Hr, Hvs, Hlog, He.
  split; [reflexivity|]. split; [reflexivity|]. split; [reflexivity|].
  split.
  - eexists. reflexivity.
  - cbn [app]. destruct (load_errors env (file :: files)); [rewrite app_nil_r|]; reflexivity.
Qed.

(** A successful run adds the vectors of its chunks to the collection of
    the store, after the points that are there. *)
Lemma index_documents_adds files w id points :
  vectorstore w = Some id ->
  clients w !! id = Some points ->
  let documents := all_documents (fst (process_files env files w)) in
  let chunks := make_chunks env documents in
  let new := map (fun c => MkIndexedVector (embed env (page_content c)) c) chunks in
  documents <> [] ->
  embed_error env (map page_content chunks) = None ->
  let w1 := snd (index_documents env files w) in
  clients w1 = <[id := points ++ new]> (clients w)
  /\ vectorstore w1 = Some id.
Proof.
  intros Hvs Hpts documents chunks new Hdocs Hembed.
  subst new chunks documents. unfold index_documents.
  destruct files as [|file files]; [contradiction|].
  rewrite Hvs. unfold process_files in *.
  pose proof (process_files_world (file :: files) (MkLoaded [] [] []) w) as Hw.
  cbv zeta in Hw.
  destruct (fold_left (process_file env) (file :: files) (MkLoaded [] [] [], w)) as [acc w'].
  cbn [fst snd] in Hw, Hdocs, Hembed |- *.
  destruct Hw as (Hc & Hv & _ & _).
  cbv beta iota zeta.
  destruct (all_documents acc) as [|doc docs] eqn:Hall; [contradiction|].
  unfold add_documents. cbn [vectorstore clients log]. rewrite Hv, Hvs, Hc, Hpts, Hembed.
  cbn [fst snd clients vectorstore set_clients set_retriever log].
  rewrite ?Hc, ?Hv, ?Hvs. split; reflexivity.
Qed.

(** Whatever a run of [index_documents] does, every collection keeps the
    points it had, in their places. *)
Lemma index_documents_extends files w id points :
  clients w !! id = Some points ->
  exists new, clients (snd (index_documents env files w)) !! id = Some (points ++ new).
Proof.
  intros Hpts.
  assert (Hsame : clients (snd (index_documents env files w)) = clients w
                  -> exists new, clients (snd (index_documents env files w)) !! id
                                 = Some (points ++ new)).
  { intros ->. exists []. rewrite app_nil_r. exact Hpts. }
  unfold index_documents in *.
  destruct files as [|file files]; [apply Hsame; reflexivity|].
  destruct (vectorstore w) as [vs|] eqn:Hvs; [|apply Hsame; reflexivity].
  unfold process_files in *.
  pose proof (process_files_world (file :: files) (MkLoaded [] [] []) w) as Hw.
  cbv zeta in Hw.
  destruct (fold_left (process_file env) (file :: files) (MkLoaded [] [] [], w)) as [acc w'].
  cbn [fst snd] in Hw. destruct Hw as (Hc & Hv & _ & _).
  cbv beta iota zeta in Hsame |- *.
  destruct (all_documents acc) as [|doc docs]; [apply Hsame; exact Hc|].
  clear Hsame. unfold add_documents. cbn [vectorstore clients log]. rewrite Hv, Hvs, Hc.
  destruct (clients w !! vs) as [stored|] eqn:Hstored.
  2:{ cbn [fst snd clients log set_clients set_retriever]. rewrite ?Hc. exists []. rewrite app_nil_r. exact Hpts. }
  destruct (embed_error env _) as [e|].
  { cbn [fst snd clients log set_clients set_retriever]. rewrite ?Hc. exists []. rewrite app_nil_r. exact Hpts. }
  cbn [fst snd clients set_clients set_retriever log]. rewrite ?Hc.
  destruct (decide (vs = id)) as [->|Hne].
  - rewrite Hstored in Hpts. injection Hpts as ->.
    eexists. apply list_lookup_insert_eq. eapply lookup_lt_Some. exact Hstored.
  - exists []. rewrite app_nil_r, list_lookup_insert_ne by exact Hne. exact Hpts.
Qed.

(** C7.  Indexing the same files twice stores their chunks twice: after the
    first run the collection holds its former points followed by one new
    point per chunk, after the second the same new points once more.  No
    stored point is changed or merged, and the collection grows by the
    number of chunks each time. *)
Theorem index_twice_stores_twice files w id points :
  vectorstore w = Some id ->
  clients w !! id = Some points ->
  let documents := all_documents (fst (process_files env files w)) in
  let chunks := make_chunks env documents in
  let new := map (fun c => MkIndexedVector (embed env (page_content c)) c) chunks in
  documents <> [] ->
  embed_error env (map page_content chunks) = None ->
  let w1 := snd (index_documents env files w) in
  let w2 := snd (index_documents env files w1) in
  clients w1 !! id = Some (points ++ new)
  /\ clients w2 !! id = Some (points ++ new ++ new)
  /\ length (points ++ new) = (length points + length chunks)%nat
  /\ length (points ++ new ++ new) = (length points + 2 * length chunks)%nat.
Proof.
  intros Hvs Hpts documents chunks new Hdocs Hembed w1 w2.
  pose proof (lookup_lt_Some _ _ _ Hpts) as Hlt.
  destruct (index_documents_adds files w id points Hvs Hpts Hdocs Hembed) as (Hc1 & Hv1).
  fold documents chunks new w1 in Hc1, Hv1.
  assert (H1 : clients w1 !! id = Some (points ++ new)).
  { rewrite Hc1. apply list_lookup_insert_eq. exact Hlt. }
  assert (Hsame : all_documents (fst (process_files env files w1)) = documents).
  { unfold documents, process_files. f_equal. apply process_files_loaded. }
  assert (Hdocs' : all_documents (fst (process_files env files w1)) <> [])
    by (rewrite Hsame; exact Hdocs).
  assert (Hembed' : embed_error env (map page_content
            (make_chunks env (all_documents (fst (process_files env files w1))))) = None)
    by (rewrite Hsame; exact Hembed).
  destruct (index_documents_adds files w1 id (points ++ new) Hv1 H1 Hdocs' Hembed')
    as (Hc2 & _).
  rewrite Hsame in Hc2. fold chunks new w2 in Hc2.
  split; [exact H1|]. split.
  - rewrite Hc2, <- app_assoc. apply list_lookup_insert_eq.
    rewrite Hc1, length_insert. exact Hlt.
  - unfold new. rewrite !length_app, !length_map. lia.
Qed.

End Indexing.

(** *** Counterexamples and instances *)

(** C3 (as stated) fails: two chunks of one document give two headers. *)
Lemma context_headers_exceed_documents :
  let docs := [doc_from "a.txt" "alpha"; doc_from "a.txt" "beta"] in
  ~ (header_count (slice_to context_window (build_context (group_by_source docs)))
     = length (first_seen (map source_of docs))).
Proof. vm_compute. discriminate. Qed.

(** C6 (as stated) fails: the preview of a chunk whose 150th character is a
    newline loses that character. *)
Lemma preview_is_stripped :
  let doc := MkDocument (replicate 149 97 ++ [nl] ++ u "b") ∅ in
  ~ (chunk_preview doc = preview_as_specified doc).
Proof.
  intros doc H. apply (f_equal length) in H. vm_compute in H. discriminate H.
Qed.

Lemma context_has_one_header_per_chunk_witness :
  let question := u "Where is Lyon?" in
  let docs := four_chunks in
  let groups := groups_of docs in
  let parts := concat (map labelled_chunks groups) in
  let context := join context_separator parts in
  let passed := slice_to context_window context in
  (map fst groups = [PStr (u "a.txt"); PStr (u "b.txt"); PStr (u "c.txt")]
   /\ parts = [context_part (PStr (u "a.txt")) 1 (doc_from "a.txt" "alpha");
               context_part (PStr (u "a.txt")) 2 (doc_from "a.txt" "beta");
               context_part (PStr (u "b.txt")) 1 long_chunk;
               context_part (PStr (u "c.txt")) 1 (doc_from "c.txt" "gamma")]
   /\ length context = 7147%nat
   /\ length passed = 6000%nat
   /\ header_count context = 4%nat
   /\ header_count passed = 3%nat)
  /\ (length groups = length (first_seen (map source_of docs))
      /\ length parts = length docs
      /\ Forall (fun part => startswith part (u "[Document: ") = true) parts
      /\ fst (query_rag env_ok question [] (holding docs))
         = match llm_invoke env_ok (prompt_messages passed question) with
           | Ok answer =>
               ([], [] ++ [(question, answer ++ sources_section (group_by_source docs) docs)])
           | Raise e => query_error question [] e
           end
      /\ calls (snd (query_rag env_ok question [] (holding docs)))
         = calls (holding docs) ++ [ERetrieve question; EChat passed question]
      /\ passed = take 6000 context
      /\ (length passed <= 6000)%nat).
Proof.
  intros question docs groups parts context passed. split.
  - vm_compute. repeat split.
  - apply (context_has_one_header_per_chunk env_ok question [] (holding docs) docs).
    + vm_compute. discriminate.
    + vm_compute. discriminate.
    + reflexivity.
    + vm_compute. reflexivity.
    + discriminate.
Defined.

Lemma answer_ends_with_sources_section_witness :
  fst (query_rag env_ok (u "Where is Lyon?") [] (indexed_notes env_ok))
  = ([], [(u "Where is Lyon?",
           u "Paris is the capital of France (notes.txt)."
           ++ sources_header 1 1
           ++ u "📄 **notes.txt** (1 chunk(s))" ++ [nl]
           ++ u "   • Chunk 1: _Paris is the capital of France. Lyon is a major city._"
           ++ [nl; nl])]).
Proof.
  pose proof (answer_ends_with_sources_section env_ok (u "Where is Lyon?") []
                (indexed_notes env_ok)
                [MkDocument notes_text
                   (<[u "chunk_index" := PInt 0]>
                      (<[u "file_path" := PStr (u "/tmp/notes.txt")]>
                         {[ u "source" := PStr (u "notes.txt") ]}))]
                (u "Paris is the capital of France (notes.txt).")) as H.
  destruct H as (H & _ & _).
  - vm_compute. discriminate.
  - vm_compute. discriminate.
  - vm_compute. reflexivity.
  - vm_compute. reflexivity.
  - discriminate.
  - vm_compute. reflexivity.
  - rewrite H. vm_compute. reflexivity.
Defined.

Lemma blank_question_is_ignored_witness :
  query_rag env_ok (u "  ") [] (indexed_notes env_ok) = (([], []), indexed_notes env_ok).
Proof. apply (blank_question_is_ignored env_ok). vm_compute. reflexivity. Defined.

Lemma query_error_is_recorded_witness :
  fst (query_rag env_search_fails (u "Where is Lyon?") [] (indexed_notes env_search_fails))
  = ([], [(u "Where is Lyon?", u "❌ Error processing query: " ++ u "timed out")]).
Proof.
  apply (query_error_is_recorded env_search_fails _ [] _ (Exn (u "timed out"))).
  - vm_compute. discriminate.
  - vm_compute. discriminate.
  - vm_compute. reflexivity.
  - left. vm_compute. reflexivity.
Defined.

Lemma query_after_clear_finds_nothing_witness :
  let w' := snd (clear_index env_ok (indexed_notes env_ok)) in
  retriever_invoke env_ok (u "Where is Lyon?") w' = Ok []
  /\ fst (query_rag env_ok (u "Where is Lyon?") [] w') = (msg_no_relevant, []).
Proof.
  apply (query_after_clear_finds_nothing env_ok).
  - vm_compute. reflexivity.
  - vm_compute. reflexivity.
  - vm_compute. discriminate.
Defined.

Lemma index_nothing_loadable_witness :
  let files := [upload_of "/tmp/report.docx"; None; upload_of "/tmp/notes.md"] in
  let r := index_documents env_ok files (started env_ok) in
  clients (snd r) = clients (started env_ok)
  /\ vectorstore (snd r) = vectorstore (started env_ok)
  /\ retriever (snd r) = retriever (started env_ok)
  /\ (exists loads, calls (snd r) = calls (started env_ok) ++ map ELoad loads)
  /\ fst r = msg_no_documents ++ [nl] ++ u "Errors:" ++ [nl]
             ++ u "- report.docx: Error loading document /tmp/report.docx: Document appears to be empty"
             ++ [nl]
             ++ u "- notes.md: Error loading document /tmp/notes.md: Unsupported file type: .md".
Proof.
  intros files r.
  assert (Hnone : forall f docs, Some f ∈ files ->
            load_document env_ok (upload_path f) = Ok docs -> docs = []).
  { intros f docs Hin Hload. subst files.
    apply list_elem_of_In in Hin. simpl in Hin.
    destruct Hin as [H|[H|[H|[]]]]; try discriminate H;
      injection H as <-; vm_compute in Hload; discriminate Hload. }
  destruct (index_nothing_loadable env_ok files (started env_ok) Hnone)
    as (Hc & Hv & Hr & Hl & Hm).
  refine (conj Hc (conj Hv (conj Hr (conj Hl _)))).
  fold r in Hm. rewrite Hm. vm_compute. reflexivity.
Defined.

Lemma index_twice_stores_twice_witness :
  let w1 := snd (index_documents env_ok [upload_of "/tmp/notes.txt"] (started env_ok)) in
  let w2 := snd (index_documents env_ok [upload_of "/tmp/notes.txt"] w1) in
  length <$> clients (started env_ok) !! 0%nat = Some 0%nat
  /\ length <$> clients w1 !! 0%nat = Some 1%nat
  /\ length <$> clients w2 !! 0%nat = Some 2%nat.
Proof.
  intros w1 w2.
  assert (Hvs : vectorstore (started env_ok) = Some 0%nat) by (vm_compute; reflexivity).
  assert (Hpts : clients (started env_ok) !! 0%nat = Some []) by (vm_compute; reflexivity).
  assert (Hdocs : all_documents (fst (process_files env_ok [upload_of "/tmp/notes.txt"]
                                        (started env_ok))) <> [])
    by (vm_compute; discriminate).
  destruct (index_twice_stores_twice env_ok [upload_of "/tmp/notes.txt"] (started env_ok)
              0%nat [] Hvs Hpts Hdocs eq_refl) as (H1 & H2 & _ & _).
  fold w1 in H1. fold w1 w2 in H2.
  rewrite Hpts, H1, H2. repeat split.
Defined.

End RagFacts.

(** * Further properties *)

(** ** The MCP tool server *)

Module McpMore.
Import Pathlib Mcp.

(** *** Resolved paths *)

Lemma normalize_no_dotdot ps : forall acc,
  Forall (fun c => c <> [46; 46]) acc ->
  Forall (fun c => c <> [46; 46]) (normalize acc ps).
Proof.
  induction ps as [|c ps IH]; intros acc Hacc; simpl.
  - apply Forall_rev. exact Hacc.
  - unfold is_dotdot. destruct (bool_decide (c = [46; 46])) eqn:Hc.
    + apply IH. destruct acc; [constructor|]. inversion Hacc; assumption.
    + apply IH. constructor; [|exact Hacc]. apply bool_decide_eq_false in Hc. exact Hc.
Qed.

Lemma normalize_plain ps : forall acc,
  Forall (fun c => c <> [46; 46]) ps -> normalize acc ps = rev acc ++ ps.
Proof.
  induction ps as [|c ps IH]; intros acc Hps; simpl.
  - rewrite app_nil_r. reflexivity.
  - inversion Hps as [|? ? Hc Hps']; subst.
    unfold is_dotdot. rewrite bool_decide_eq_false_2 by exact Hc.
    rewrite IH by exact Hps'. simpl. rewrite <- app_assoc. reflexivity.
Qed.

(** Resolving a resolved path changes nothing. *)
Lemma resolve_resolved cwd p : resolve cwd (resolve cwd p) = resolve cwd p.
Proof.
  unfold resolve. cbn [absolute parts]. f_equal.
  apply (normalize_plain _ []). apply normalize_no_dotdot. constructor.
Qed.

Lemma to_str_resolve cwd p : to_str (resolve cwd p) = 47 :: join [47] (parts (resolve cwd p)).
Proof. reflexivity. Qed.

Lemma join_app_prefix sep r : forall k, exists rest, join sep (r ++ k) = join sep r ++ rest.
Proof.
  induction r as [|x r IH]; intros k.
  - exists (join sep k). reflexivity.
  - destruct r as [|y r].
    + destruct k as [|z k]; simpl.
      * exists []. rewrite app_nil_r. reflexivity.
      * eexists. reflexivity.
    + destruct (IH k) as [rest Hrest].
      exists rest. change (join sep ((x :: y :: r) ++ k)) with (x ++ sep ++ join sep ((y :: r) ++ k)).
      rewrite Hrest. change (join sep (x :: y :: r)) with (x ++ sep ++ join sep (y :: r)).
      rewrite <- !app_assoc. reflexivity.
Qed.

Lemma startswith_extension p rest : startswith (p ++ rest) p = true.
Proof.
  induction p as [|c p IH]; simpl; [destruct rest; reflexivity|].
  rewrite N.eqb_refl, IH. reflexivity.
Qed.

Section Server.

Variable script_file : str.
Variable cwd : list str.

(** X1.  Every request that resolves inside the project root passes the
    containment check, so [read_file] never answers it with the denial. *)
Theorem inside_project_is_not_denied (fs : node) (requested : str) :
  inside_project script_file cwd (resolved_request script_file cwd requested) ->
  validate_path_within_project cwd
    (resolved_request script_file cwd requested) (get_project_root script_file) = true
  /\ handle_read_file script_file cwd fs {[ u "filepath" := PStr requested ]} <> denied_file.
Proof.
  intros [rest Hinside].
  assert (Hcheck : validate_path_within_project cwd
            (resolved_request script_file cwd requested) (get_project_root script_file) = true).
  { unfold validate_path_within_project, resolved_request in *.
    rewrite resolve_resolved, !to_str_resolve, Hinside.
    cbn [startswith]. rewrite N.eqb_refl. cbn [andb].
    destruct (join_app_prefix [47] (parts (resolve cwd (get_project_root script_file))) rest)
      as [tail Htail].
    rewrite Htail. apply startswith_extension. }
  split; [exact Hcheck|].
  unfold handle_read_file, read_file_body. rewrite lookup_singleton_eq. cbn [from_option]. unfold id. cbn [truediv bind].
  unfold resolve_or_raise. destruct (has_nul _); cbn [bind].
  { intros H. apply (f_equal (fun l => take 6 <$> (text <$> head l))) in H.
    vm_compute in H. discriminate H. }
  unfold resolved_request in Hcheck. rewrite Hcheck. cbn [negb].
  destruct (exists_ fs _); cbn [negb].
  - destruct (read_text fs _) as [content|e]; cbn [bind];
      intros H; apply (f_equal (fun l => take 6 <$> (text <$> head l))) in H;
      vm_compute in H; discriminate H.
  - intros H. apply (f_equal (fun l => take 8 <$> (text <$> head l))) in H.
    vm_compute in H. discriminate H.
Qed.

End Server.

(** *** What the string check lets through *)















Section Check.

Variable script_file : str.
Variable cwd : list str.




End Check.

Lemma inside_project_is_not_denied_witness :
  validate_path_within_project []
    (resolved_request app_script [] (u "mcp_server/../README.md")) (get_project_root app_script)
  = true
  /\ handle_read_file app_script [] sample_fs {[ u "filepath" := PStr (u "mcp_server/../README.md") ]}
     <> denied_file.
Proof.
  apply (inside_project_is_not_denied app_script [] sample_fs (u "mcp_server/../README.md")).
  exists [u "README.md"]. vm_compute. reflexivity.
Defined.


End McpMore.

(** ** The RAG application *)

Module RagMore.
Import Pathlib Rag Samples RagFacts.

(** *** Loading and indexing *)

Section Batches.

Variable env : Env.
Implicit Types (w : world env) (files : list (option upload)) (acc : loaded).

(** X4.  A Word or PowerPoint file that loads gives exactly one document,
    whose text has a visible character and whose source is the file's base
    name; a file with only blank text cannot load. *)
Theorem office_file_loads_with_text (file_path : str) (documents : list Document) :
  lower (suffix (of_str file_path)) ∈ [u ".doc"; u ".docx"; u ".ppt"; u ".pptx"] ->
  load_document env file_path = Ok documents ->
  exists text,
    documents = [MkDocument text {[ u "source" := PStr (name (of_str file_path)) ]}]
    /\ strip text <> [].
Proof.
  intros Hext Hload. unfold load_document in Hload.
  destruct (load_by_extension env file_path) as [docs|e] eqn:Hby; [|discriminate].
  injection Hload as ->. unfold load_by_extension in Hby.
  assert (Hcases : load_docx env file_path = Ok documents
                   \/ load_pptx env file_path = Ok documents).
  { rewrite !elem_of_cons in Hext.
    destruct Hext as [H|[H|[H|[H|H]]]]; [| | | |inversion H]; rewrite H in Hby;
      vm_compute bool_decide in Hby; cbn [orb] in Hby; tauto. }
  destruct Hcases as [H|H].
  - apply load_docx_nonblank in H. exact H.
  - apply load_pptx_nonblank in H. exact H.
Qed.

Lemma omap_step {A B} (f : A -> option B) (x : A) (l : list A) :
  omap f (x :: l) = match f x with Some y => y :: omap f l | None => omap f l end.
Proof. reflexivity. Qed.

(** The loop over the files, from any starting lists. *)
Lemma process_files_from files : forall acc w,
  let r := fst (fold_left (process_file env) files (acc, w)) in
  all_documents r = all_documents acc ++ loaded_documents env files
  /\ processed_files r = processed_files acc ++ loaded_names env files
  /\ errors r = errors acc ++ load_errors env files.
Proof.
  induction files as [|file files IH]; intros acc w.
  - cbn. rewrite !app_nil_r. repeat split.
  - cbn [fold_left process_file]. unfold loaded_documents, loaded_names, load_errors in *.
    rewrite !omap_step.
    destruct file as [f|]; cbn [loaded_of load_error]; [|apply IH].
    destruct (load_document env (upload_path f)) as [docs|e];
      match goal with
      | |- context [fold_left _ files (?a, ?w')] => destruct (IH a w') as (Ha & Hp & He)
      end;
      cbv zeta; rewrite Ha, Hp, He;
      cbn [all_documents processed_files errors map concat fst snd];
      rewrite <- ?app_assoc; repeat split.
Qed.

(** X5.  A batch is loaded file by file, and a file that fails does not stop
    the others: the documents collected are those of every file that loads,
    in upload order, the error lines are those of every file that raises,
    and each file given is counted once, as processed or as an error. *)
Theorem batch_is_loaded_file_by_file files w :
  let acc := fst (process_files env files w) in
  all_documents acc = loaded_documents env files
  /\ processed_files acc = loaded_names env files
  /\ errors acc = load_errors env files
  /\ (length (processed_files acc) + length (errors acc))%nat = length (uploaded_paths files).
Proof.
  intros acc. subst acc. unfold process_files.
  destruct (process_files_from files (MkLoaded [] [] []) w) as (Ha & Hp & He).
  cbv zeta in Ha, Hp, He. cbn [all_documents processed_files errors app] in Ha, Hp, He.
  rewrite Ha, Hp, He. repeat split.
  unfold loaded_names, load_errors, uploaded_paths. rewrite length_map.
  clear. induction files as [|file files IH]; [reflexivity|].
  rewrite !omap_step.
  destruct file as [f|]; cbn [loaded_of load_error fmap option_fmap option_map];
    [|exact IH].
  destruct (load_document env (upload_path f)); cbn [length]; lia.
Qed.

Lemma key_file_path_not_source : u "file_path" <> u "source".
Proof. intros H. vm_compute in H. discriminate H. Qed.

(** X6.  Every document collected from a batch carries, under [source], the
    base name of the file it was loaded from and, under [file_path], the
    path of that file, whatever metadata the parser had put there. *)
Theorem collected_documents_are_tagged files w (doc : Document) :
  doc ∈ all_documents (fst (process_files env files w)) ->
  exists f,
    Some f ∈ files
    /\ metadata doc !! u "source" = Some (PStr (name (of_str (upload_path f))))
    /\ metadata doc !! u "file_path" = Some (PStr (upload_path f)).
Proof.
  unfold process_files.
  destruct (process_files_from files (MkLoaded [] [] []) w) as (Ha & _ & _).
  cbv zeta in Ha. cbn [all_documents app] in Ha. rewrite Ha. clear Ha.
  unfold loaded_documents. intros Hin.
  apply list_elem_of_In, in_concat in Hin. destruct Hin as (docs & Hdocs & Hin).
  apply in_map_iff in Hdocs. destruct Hdocs as ([filename tagged] & <- & Hpair).
  apply list_elem_of_In, list_elem_of_omap in Hpair.
  destruct Hpair as (file & Hfile & Hloaded).
  destruct file as [f|]; [|discriminate].
  cbn [loaded_of] in Hloaded.
  destruct (load_document env (upload_path f)) as [loaded|e]; [|discriminate].
  injection Hloaded as <- <-. cbn [snd] in Hin.
  apply in_map_iff in Hin. destruct Hin as (raw & <- & _).
  exists f. split; [exact Hfile|]. unfold tag_document. cbn [metadata]. split.
  - rewrite lookup_insert_ne by exact key_file_path_not_source.
    apply lookup_insert_eq.
  - apply lookup_insert_eq.
Qed.

Lemma lookup_enumerate {A} (l : list A) : forall start i,
  enumerate start l !! i = (fun x => ((start + i)%nat, x)) <$> l !! i.
Proof.
  induction l as [|x l IH]; intros start i; [reflexivity|].
  destruct i as [|i]; cbn [enumerate lookup list_lookup].
  - cbn. rewrite Nat.add_0_r. reflexivity.
  - change ((enumerate (S start) l) !! i = (fun x0 => ((start + S i)%nat, x0)) <$> l !! i).
    rewrite IH. replace (S start + i)%nat with (start + S i)%nat by lia. reflexivity.
Qed.

(** X7.  The chunks are numbered in the order the splitter gives them, from
    0: chunk [i] keeps its text and every other metadata entry, and gets
    [chunk_index = i] unless it already has a chunk index, which is kept. *)
Theorem chunks_are_numbered_in_order (documents : list Document) (i : nat) (chunk : Document) :
  split_documents env documents !! i = Some chunk ->
  length (make_chunks env documents) = length (split_documents env documents)
  /\ exists numbered,
       make_chunks env documents !! i = Some numbered
       /\ page_content numbered = page_content chunk
       /\ metadata numbered !! u "chunk_index"
          = Some (default (PInt (Z.of_nat i)) (metadata chunk !! u "chunk_index"))
       /\ forall key, key <> u "chunk_index" ->
            metadata numbered !! key = metadata chunk !! key.
Proof.
  intros Hi. unfold make_chunks. split.
  - rewrite length_map, length_enumerate. reflexivity.
  - exists (number_chunk (i, chunk)). split.
    + change (map number_chunk (enumerate 0 (split_documents env documents)))
        with (number_chunk <$> enumerate 0 (split_documents env documents)).
      rewrite list_lookup_fmap, lookup_enumerate, Hi. reflexivity.
    + unfold number_chunk.
      destruct (metadata chunk !! u "chunk_index") as [v|] eqn:Hidx.
      * rewrite Hidx. repeat split.
      * cbn [page_content metadata default from_option id]. split; [reflexivity|]. split.
        -- apply lookup_insert_eq.
        -- intros key Hkey. apply lookup_insert_ne. congruence.
Qed.

(** What [add_documents] does depends on the store and the clients only. *)
Lemma add_documents_raise_same chunks w w' e :
  vectorstore w' = vectorstore w -> clients w' = clients w ->
  add_documents env chunks w = Raise e -> add_documents env chunks w' = Raise e.
Proof.
  intros Hv Hc. unfold add_documents. rewrite Hv, Hc.
  destruct (vectorstore w) as [id|]; [|trivial].
  destruct (clients w !! id); [|trivial].
  destruct (embed_error env _); [trivial|discriminate].
Qed.

(** X8.  When adding to the vector store raises, [index_documents] returns
    the indexing error with the exception's text and leaves the retriever
    and the store handle as they were. *)
Theorem index_error_is_reported files w e :
  vectorstore w <> None ->
  let documents := all_documents (fst (process_files env files w)) in
  documents <> [] ->
  add_documents env (make_chunks env documents) w = Raise e ->
  let r := index_documents env files w in
  fst r = u "❌ Error indexing documents: " ++ exn_msg e
  /\ retriever (snd r) = retriever w
  /\ vectorstore (snd r) = vectorstore w.
Proof.
  intros Hvs documents Hdocs Hadd r. subst r documents. unfold index_documents.
  destruct files as [|file files]; [contradiction|].
  destruct (vectorstore w) as [id|] eqn:Hv; [|contradiction]. clear Hvs.
  unfold process_files in *.
  pose proof (process_files_world env (file :: files) (MkLoaded [] [] []) w) as Hw.
  cbv zeta in Hw.
  destruct (fold_left (process_file env) (file :: files) (MkLoaded [] [] [], w)) as [acc w'].
  cbn [fst snd] in Hw, Hdocs, Hadd |- *. destruct Hw as (Hc & Hv' & Hr & _).
  cbv beta iota zeta.
  destruct (all_documents acc) as [|doc docs] eqn:Hall; [contradiction|].
  rewrite (add_documents_raise_same _ w _ e); [| | |exact Hadd].
  - cbn [fst snd retriever vectorstore log]. rewrite Hr, Hv', Hv. repeat split.
  - cbn [vectorstore log]. rewrite Hv', Hv. reflexivity.
  - cbn [clients log]. exact Hc.
Qed.

(** X9.  A successful run announces the number of chunks it stored and the
    files they came from, then the error lines of the files that failed, and
    binds the retriever to the store, so that the next query searches the
    collection just extended. *)
Theorem index_success_is_reported files w id points :
  vectorstore w = Some id ->
  clients w !! id = Some points ->
  let documents := all_documents (fst (process_files env files w)) in
  let chunks := make_chunks env documents in
  documents <> [] ->
  embed_error env (map page_content chunks) = None ->
  let r := index_documents env files w in
  fst r = u "✅ Successfully indexed " ++ str_of_nat (length chunks)
          ++ u " chunks from " ++ str_of_nat (length (loaded_names env files))
          ++ u " file(s)!" ++ [nl; nl]
          ++ u "Files processed:" ++ [nl] ++ bullet_list (loaded_names env files)
          ++ match load_errors env files with
             | [] => []
             | errs => [nl; nl] ++ u "⚠️ Errors:" ++ [nl] ++ bullet_list errs
             end
  /\ retriever (snd r) = Some id
  /\ (length <$> clients (snd r) !! id) = Some (length points + length chunks)%nat.
Proof.
  intros Hvs Hpts documents chunks Hdocs Hembed r.
  destruct (index_documents_adds env files w id points Hvs Hpts Hdocs Hembed) as (Hc & _).
  fold documents chunks r in Hc.
  assert (Hlen : (length <$> clients (snd r) !! id) = Some (length points + length chunks)%nat).
  { rewrite Hc, list_lookup_insert_eq by (eapply lookup_lt_Some; exact Hpts).
    cbn. rewrite length_app, length_map. reflexivity. }
  split; [|split; [|exact Hlen]]; clear Hc Hlen; subst r chunks documents;
    unfold index_documents;
    (destruct files as [|file files]; [contradiction|]);
    rewrite Hvs; unfold process_files in *;
    pose proof (process_files_world env (file :: files) (MkLoaded [] [] []) w) as Hw;
    pose proof (process_files_from (file :: files) (MkLoaded [] [] []) w) as Hl;
    cbv zeta in Hw, Hl;
    destruct (fold_left (process_file env) (file :: files) (MkLoaded [] [] [], w)) as [acc w'];
    cbn [fst snd all_documents processed_files errors app] in Hw, Hl, Hdocs, Hembed |- *;
    destruct Hw as (Hc & Hv & _ & _); destruct Hl as (_ & Hp & He);
    cbv beta iota zeta;
    (destruct (all_documents acc) as [|doc docs] eqn:Hall; [contradiction|]);
    unfold add_documents; cbn [vectorstore clients log];
    rewrite Hv, Hvs, Hc, Hpts, Hembed.
  - cbn [fst]. rewrite Hp, He.
    destruct (load_errors env (file :: files)); rewrite <- ?app_assoc, ?app_nil_r; reflexivity.
  - cbn [snd retriever vectorstore set_retriever set_clients log]. rewrite Hv, Hvs. reflexivity.
Qed.

(** X10.  Whatever a run of [index_documents] does (an early return, a run
    that loads nothing, a failed or a successful addition), every collection
    still starts with the points it held, unchanged and in their places:
    indexing only appends, and no collection gets shorter. *)
Theorem indexing_only_appends files w (id : nat) (points : list (IndexedVector (vector env))) :
  clients w !! id = Some points ->
  exists new,
    clients (snd (index_documents env files w)) !! id = Some (points ++ new)
    /\ (length points <= length (points ++ new))%nat.
Proof.
  intros Hpts. destruct (index_documents_extends env files w id points Hpts) as [new Hnew].
  exists new. split; [exact Hnew|]. rewrite length_app. lia.
Qed.

End Batches.

(** *** Sessions *)

Section Sessions.

Variable env : Env.
Implicit Types (w : world env) (question : str) (history : history_t).

(** X11.  A query never loses a turn and never touches the index.  The
    history it returns is the one it was given, or that one followed by a
    single turn for the question asked; the clients, the store and the
    retriever are unchanged; and the only calls it makes are a retrieval for
    the question and, after it, at most one call of the chat model. *)
Theorem query_extends_history_only question history w :
  let r := query_rag env question history w in
  (snd (fst r) = history \/ exists answer, fst r = ([], history ++ [(question, answer)]))
  /\ clients (snd r) = clients w
  /\ vectorstore (snd r) = vectorstore w
  /\ retriever (snd r) = retriever w
  /\ (calls (snd r) = calls w
      \/ calls (snd r) = calls w ++ [ERetrieve question]
      \/ exists context,
           calls (snd r) = calls w ++ [ERetrieve question; EChat context question]).
Proof.
  intros r. subst r. unfold query_rag.
  destruct (negb (nonblank question)).
  { cbn [fst snd]. repeat split; auto. }
  destruct (bool_decide (retriever w = None) || negb (llm w)).
  { cbn [fst snd]. repeat split; auto. }
  destruct (retriever_invoke env question (log (ERetrieve question) w)) as [docs|e].
  2:{ cbn [fst snd clients vectorstore retriever calls log query_error].
      split; [right; eexists; reflexivity|]. repeat split; auto. }
  destruct docs as [|doc docs].
  { cbn [fst snd clients vectorstore retriever calls log]. repeat split; auto. }
  cbv zeta.
  destruct (llm_invoke env _) as [answer|e];
    cbn [fst snd clients vectorstore retriever calls log query_error];
    (split; [right; eexists; reflexivity|]);
    (split; [reflexivity|]); (split; [reflexivity|]); (split; [reflexivity|]);
    right; right; eexists; rewrite <- app_assoc; reflexivity.
Qed.

(** A question asked while the retriever or the chat model is not set
    gets the initialize-first message: the history is returned as it was and
    nothing is called. *)
Theorem query_before_initialization question history w :
  strip question <> [] ->
  retriever w = None \/ llm w = false ->
  query_rag env question history w = ((msg_initialize_first, history), w).
Proof.
  intros Hq Hnone. apply nonblank_true in Hq.
  unfold query_rag. rewrite Hq. cbn [negb].
  destruct Hnone as [Hr|Hl].
  - rewrite Hr, bool_decide_eq_true_2 by reflexivity. reflexivity.
  - rewrite Hl, orb_true_r. reflexivity.
Qed.

(** When the new collection cannot be created, [clear_index] reports the
    error and the application keeps the store, the retriever and the
    collections it had: the index is not cleared. *)
Theorem failed_clear_keeps_index w e :
  create_collection_error env = Some e ->
  let r := clear_index env w in
  fst r = u "❌ Error clearing index: " ++ exn_msg e
  /\ vectorstore (snd r) = vectorstore w
  /\ retriever (snd r) = retriever w
  /\ clients (snd r) = clients w.
Proof.
  intros He r. subst r. unfold clear_index, new_client. rewrite He.
  repeat split.
Qed.

(** X12.  After a start-up that succeeds, nothing is indexed: the store and the
    retriever are bound to the same new, empty collection, and a question
    gets the no-documents message, with the history unchanged and without a
    call of the chat model. *)
Theorem start_then_query_finds_nothing (key : str) w question history :
  key <> [] ->
  create_collection_error env = None ->
  strip question <> [] ->
  let started := initialize_components env (Some key) w in
  fst started = Ok msg_initialized
  /\ vectorstore (snd started) = retriever (snd started)
  /\ (exists id, retriever (snd started) = Some id /\ clients (snd started) !! id = Some [])
  /\ fst (query_rag env question history (snd started)) = (msg_no_relevant, history)
  /\ calls (snd (query_rag env question history (snd started)))
     = calls w ++ [ENewClient; ERetrieve question].
Proof.
  intros Hkey Hcreate Hq started. subst started.
  destruct key as [|c key]; [contradiction|].
  unfold initialize_components, new_client. rewrite Hcreate.
  cbn [fst snd vectorstore retriever clients calls set_retriever set_vectorstore set_clients
       set_models log length].
  assert (Hlookup : (clients w ++ [[]]) !! length (clients w)
                    = Some ([] : list (IndexedVector (vector env)))).
  { rewrite lookup_app_r by reflexivity.
    replace (length (clients w) - length (clients w))%nat with 0%nat by lia. reflexivity. }
  split; [reflexivity|]. split; [reflexivity|].
  split; [eexists; split; [reflexivity|exact Hlookup]|].
  apply nonblank_true in Hq.
  unfold query_rag. rewrite Hq. cbn [negb llm retriever set_retriever set_vectorstore
                                      set_clients set_models log orb].
  rewrite bool_decide_eq_false_2 by discriminate. cbn [orb].
  unfold retriever_invoke. cbn [retriever clients log set_retriever set_vectorstore set_clients
                                set_models].
  rewrite Hlookup. cbn [fst snd calls log set_retriever set_vectorstore set_clients set_models].
  split; [reflexivity|]. rewrite <- app_assoc. reflexivity.
Qed.

End Sessions.

(** *** Grouping and previews *)

Lemma append_at_adds source doc (d : sources_dict_t) :
  source ∈ map fst d ->
  concat (map snd (append_at source doc d)) ≡ₚ doc :: concat (map snd d).
Proof.
  induction d as [|[k v] d IH]; intros Hin; [inversion Hin|].
  cbn [append_at]. destruct (decide (k = source)) as [Heq|Hne].
  - cbn [map concat snd]. rewrite <- app_assoc. cbn [app].
    symmetry. apply Permutation_middle.
  - cbn [map concat snd fst] in *. rewrite elem_of_cons in Hin.
    destruct Hin as [Hin|Hin]; [congruence|].
    rewrite (IH Hin). symmetry. apply Permutation_middle.
Qed.

(** X13.  Grouping by source neither drops nor repeats a retrieved chunk: the
    chunks of all groups together are the retrieved chunks, rearranged. *)
Theorem grouping_keeps_every_chunk (docs : list Document) :
  concat (map snd (group_by_source docs)) ≡ₚ docs.
Proof.
  induction docs as [|doc docs IH] using rev_ind; [reflexivity|].
  unfold group_by_source in *. rewrite fold_left_app. cbn [fold_left].
  transitivity (doc :: concat (map snd (fold_left group_step docs []))).
  2:{ rewrite IH. apply Permutation_cons_append. }
  clear IH. generalize (fold_left group_step docs []). intros d.
  unfold group_step, has_key.
  destruct (bool_decide (source_of doc ∈ map fst d)) eqn:Hkey.
  - apply append_at_adds. apply bool_decide_eq_true in Hkey. exact Hkey.
  - etransitivity; [apply append_at_adds|].
    + rewrite map_app. cbn [map fst]. rewrite elem_of_app, elem_of_cons. tauto.
    + rewrite map_app, concat_app. cbn [map concat snd app]. rewrite app_nil_r. reflexivity.
Qed.

Lemma lstrip_suffix s : exists dropped, s = dropped ++ lstrip s.
Proof.
  induction s as [|c s IH]; [exists []; reflexivity|].
  cbn [lstrip]. destruct (isspace c).
  - destruct IH as [dropped IH]. exists (c :: dropped). cbn. rewrite <- IH. reflexivity.
  - exists []. reflexivity.
Qed.

Lemma strip_inside s : exists before after, s = before ++ strip s ++ after.
Proof.
  unfold strip, rstrip.
  destruct (lstrip_suffix s) as [before Hb].
  destruct (lstrip_suffix (rev (lstrip s))) as [after Ha].
  exists before, (rev after).
  rewrite <- rev_app_distr, <- Ha, rev_involutive. exact Hb.
Qed.

(** X14.  A chunk preview is short and fits on one line: it has at most 153
    characters (150 of the chunk and the ellipsis) and holds no newline. *)
Theorem chunk_preview_is_one_short_line (doc : Document) :
  (length (chunk_preview doc) <= 153)%nat /\ nl ∉ chunk_preview doc.
Proof.
  unfold chunk_preview.
  set (cut := replace_char nl space (slice_to 150 (page_content doc))).
  assert (Hlen : (length cut <= 150)%nat).
  { unfold cut, replace_char, slice_to. rewrite length_map, length_take. lia. }
  assert (Hnl : nl ∉ cut).
  { unfold cut, replace_char. intros Hin. apply list_elem_of_In, in_map_iff in Hin.
    destruct Hin as (c & Hc & _). destruct (c =? nl) eqn:E.
    - vm_compute in Hc. discriminate Hc.
    - apply N.eqb_neq in E. congruence. }
  destruct (strip_inside cut) as (before & after & Hcut).
  assert (Hlen' : (length (strip cut) <= 150)%nat).
  { rewrite Hcut in Hlen. rewrite !length_app in Hlen. lia. }
  assert (Hnl' : nl ∉ strip cut).
  { intros Hin. apply Hnl. rewrite Hcut, !elem_of_app. tauto. }
  destruct (150 <? length (page_content doc))%nat.
  - split.
    + rewrite length_app. change (length (u "...")) with 3%nat. lia.
    + rewrite elem_of_app. intros [H|H]; [exact (Hnl' H)|].
      vm_compute in H. apply list_elem_of_In in H. cbn in H.
      destruct H as [H|[H|[H|[]]]]; discriminate H.
  - split; [lia|exact Hnl'].
Qed.

(** *** Clearing and indexing again *)

Section Reindex.

Variable env : Env.
Implicit Types (w : world env) (files : list (option upload)).

(** A successful run binds the retriever to the client of the store. *)
Lemma index_documents_rebinds files w id points :
  vectorstore w = Some id ->
  clients w !! id = Some points ->
  let documents := all_documents (fst (process_files env files w)) in
  documents <> [] ->
  embed_error env (map page_content (make_chunks env documents)) = None ->
  retriever (snd (index_documents env files w)) = Some id.
Proof.
  intros Hvs Hpts documents Hdocs Hembed. subst documents. unfold index_documents.
  destruct files as [|file files]; [contradiction|].
  rewrite Hvs. unfold process_files in *.
  pose proof (process_files_world env (file :: files) (MkLoaded [] [] []) w) as Hw.
  cbv zeta in Hw.
  destruct (fold_left (process_file env) (file :: files) (MkLoaded [] [] [], w)) as [acc w'].
  cbn [fst snd] in Hw, Hdocs, Hembed |- *. destruct Hw as (Hc & Hv & _ & _).
  cbv beta iota zeta.
  destruct (all_documents acc) as [|doc docs] eqn:Hall; [contradiction|].
  unfold add_documents. cbn [vectorstore clients log]. rewrite Hv, Hvs, Hc, Hpts, Hembed.
  cbn [snd retriever vectorstore set_retriever set_clients log]. rewrite Hv, Hvs. reflexivity.
Qed.

(** X15.  Clearing and then indexing starts the index over: after a
    successful [clear_index] and a successful [index_documents], the store
    and the retriever are bound to one collection that holds the points of
    the new chunks and nothing else; no point stored before the clear is in
    it. *)
Theorem reindex_after_clear_holds_only_new files w :
  fst (clear_index env w) = msg_cleared ->
  let cleared := snd (clear_index env w) in
  let documents := all_documents (fst (process_files env files cleared)) in
  let chunks := make_chunks env documents in
  documents <> [] ->
  embed_error env (map page_content chunks) = None ->
  let reindexed := snd (index_documents env files cleared) in
  exists id,
    vectorstore reindexed = Some id
    /\ retriever reindexed = Some id
    /\ clients reindexed !! id
       = Some (map (fun c => MkIndexedVector (embed env (page_content c)) c) chunks).
Proof.
  intros Hclear cleared documents chunks Hdocs Hembed reindexed.
  destruct (clear_index_fresh env w Hclear) as (_ & Hvs & Hcs & _).
  fold cleared in Hvs, Hcs.
  assert (Hpts : clients cleared !! length (clients w) = Some []).
  { rewrite Hcs, lookup_app_r by reflexivity.
    replace (length (clients w) - length (clients w))%nat with 0%nat by lia. reflexivity. }
  destruct (index_documents_adds env files cleared _ [] Hvs Hpts Hdocs Hembed) as (Hc & Hv).
  fold documents chunks reindexed in Hc, Hv.
  exists (length (clients w)). split; [exact Hv|]. split.
  - apply (index_documents_rebinds files cleared _ [] Hvs Hpts Hdocs Hembed).
  - rewrite Hc. apply list_lookup_insert_eq. eapply lookup_lt_Some. exact Hpts.
Qed.

End Reindex.

(** *** Instances *)

Lemma office_file_loads_with_text_witness :
  exists text,
    [MkDocument (u "Slide 1:" ++ [nl] ++ u "Title") {[ u "source" := PStr (u "deck.pptx") ]}]
    = [MkDocument text {[ u "source" := PStr (name (of_str (u "/tmp/deck.pptx"))) ]}]
    /\ strip text <> [].
Proof.
  apply (office_file_loads_with_text env_ok (u "/tmp/deck.pptx")).
  - apply list_elem_of_In. vm_compute. tauto.
  - vm_compute. reflexivity.
Defined.

Lemma collected_documents_are_tagged_witness :
  exists f,
    Some f ∈ [None; upload_of "/tmp/notes.txt"]
    /\ metadata (tag_document (u "notes.txt") (u "/tmp/notes.txt")
                   (MkDocument notes_text {[ u "source" := PStr (u "/tmp/notes.txt") ]}))
         !! u "source" = Some (PStr (name (of_str (upload_path f))))
    /\ metadata (tag_document (u "notes.txt") (u "/tmp/notes.txt")
                   (MkDocument notes_text {[ u "source" := PStr (u "/tmp/notes.txt") ]}))
         !! u "file_path" = Some (PStr (upload_path f)).
Proof.
  apply (collected_documents_are_tagged env_ok [None; upload_of "/tmp/notes.txt"] (started env_ok)).
  apply list_elem_of_In. vm_compute. left. reflexivity.
Defined.

Lemma chunks_are_numbered_in_order_witness :
  let documents := [doc_from "a.txt" "alpha"; doc_from "b.txt" "beta"] in
  length (make_chunks env_ok documents) = 2%nat
  /\ exists numbered,
       make_chunks env_ok documents !! 1%nat = Some numbered
       /\ page_content numbered = u "beta"
       /\ metadata numbered !! u "chunk_index" = Some (PInt 1)
       /\ forall key, key <> u "chunk_index" ->
            metadata numbered !! key = metadata (doc_from "b.txt" "beta") !! key.
Proof.
  intros documents.
  exact (chunks_are_numbered_in_order env_ok documents 1 (doc_from "b.txt" "beta") eq_refl).
Defined.

Lemma index_error_is_reported_witness :
  let r := index_documents env_embed_fails [upload_of "/tmp/notes.txt"] (started env_embed_fails) in
  fst r = u "❌ Error indexing documents: " ++ u "Incorrect API key provided"
  /\ retriever (snd r) = retriever (started env_embed_fails)
  /\ vectorstore (snd r) = vectorstore (started env_embed_fails).
Proof.
  apply (index_error_is_reported env_embed_fails [upload_of "/tmp/notes.txt"]
           (started env_embed_fails) (Exn (u "Incorrect API key provided"))).
  - vm_compute. discriminate.
  - vm_compute. discriminate.
  - vm_compute. reflexivity.
Defined.

Lemma index_success_is_reported_witness :
  let r := index_documents env_ok [upload_of "/tmp/notes.txt"; upload_of "/tmp/notes.md"]
             (started env_ok) in
  fst r = u "✅ Successfully indexed 1 chunks from 1 file(s)!" ++ [nl; nl]
          ++ u "Files processed:" ++ [nl] ++ u "- notes.txt" ++ [nl; nl]
          ++ u "⚠️ Errors:" ++ [nl]
          ++ u "- notes.md: Error loading document /tmp/notes.md: Unsupported file type: .md"
  /\ retriever (snd r) = Some 0%nat
  /\ (length <$> clients (snd r) !! 0%nat) = Some 1%nat.
Proof.
  intros r.
  destruct (index_success_is_reported env_ok
              [upload_of "/tmp/notes.txt"; upload_of "/tmp/notes.md"] (started env_ok) 0%nat [])
    as (Hmsg & Hr & Hlen).
  - vm_compute. reflexivity.
  - vm_compute. reflexivity.
  - vm_compute. discriminate.
  - vm_compute. reflexivity.
  - fold r in Hmsg, Hr, Hlen. split; [|split; [exact Hr|exact Hlen]].
    rewrite Hmsg. vm_compute. reflexivity.
Defined.

Lemma indexing_only_appends_witness :
  let w := indexed_notes env_ok in
  let r := index_documents env_ok [upload_of "/tmp/notes.txt"] w in
  exists new,
    clients (snd r) !! 0%nat
    = Some ([MkIndexedVector (tt : vector env_ok)
               (MkDocument notes_text
                  (<[u "chunk_index" := PInt 0]>
                     (<[u "file_path" := PStr (u "/tmp/notes.txt")]>
                        {[ u "source" := PStr (u "notes.txt") ]})))] ++ new).
Proof.
  intros w r.
  destruct (indexing_only_appends env_ok [upload_of "/tmp/notes.txt"] w 0%nat
              [MkIndexedVector (tt : vector env_ok)
                 (MkDocument notes_text
                    (<[u "chunk_index" := PInt 0]>
                       (<[u "file_path" := PStr (u "/tmp/notes.txt")]>
                          {[ u "source" := PStr (u "notes.txt") ]})))])
    as (new & Hnew & _).
  - vm_compute. reflexivity.
  - exists new. exact Hnew.
Defined.

Lemma start_then_query_finds_nothing_witness :
  let started := initialize_components env_ok (Some (u "sk-test")) (boot env_ok) in
  fst started = Ok msg_initialized
  /\ vectorstore (snd started) = retriever (snd started)
  /\ (exists id, retriever (snd started) = Some id /\ clients (snd started) !! id = Some [])
  /\ fst (query_rag env_ok (u "Where is Lyon?") [] (snd started)) = (msg_no_relevant, [])
  /\ calls (snd (query_rag env_ok (u "Where is Lyon?") [] (snd started)))
     = [] ++ [ENewClient; ERetrieve (u "Where is Lyon?")].
Proof.
  apply (start_then_query_finds_nothing env_ok (u "sk-test") (boot env_ok)
           (u "Where is Lyon?") []).
  - vm_compute. discriminate.
  - reflexivity.
  - vm_compute. discriminate.
Defined.

Lemma reindex_after_clear_holds_only_new_witness :
  let cleared := snd (clear_index env_ok (indexed_notes env_ok)) in
  let reindexed := snd (index_documents env_ok [upload_of "/tmp/notes.txt"] cleared) in
  exists id,
    vectorstore reindexed = Some id
    /\ retriever reindexed = Some id
    /\ clients reindexed !! id
       = Some [MkIndexedVector (tt : vector env_ok)
                 (MkDocument notes_text
                    (<[u "chunk_index" := PInt 0]>
                       (<[u "file_path" := PStr (u "/tmp/notes.txt")]>
                          (<[u "source" := PStr (u "notes.txt")]>
                             {[ u "source" := PStr (u "/tmp/notes.txt") ]}))))].
Proof.
  intros cleared reindexed.
  destruct (reindex_after_clear_holds_only_new env_ok [upload_of "/tmp/notes.txt"]
              (indexed_notes env_ok)) as (id & Hv & Hr & Hc).
  - vm_compute. reflexivity.
  - vm_compute. discriminate.
  - reflexivity.
  - exists id. fold cleared reindexed in Hv, Hr, Hc. split; [exact Hv|]. split; [exact Hr|].
    rewrite Hc. vm_compute. reflexivity.
Defined.

End RagMore.
